(** * Device descriptors of zigbee-herdsman-converters: a shallow embedding

    The development follows three source files of the catalogue:
    - the custom-devices file (the [ptvo.switch] and [MULTI-ZIG-SW]
      records with their local converters [tzLocal] and [fzLocal] and the
      helpers [ptvoGetMetaOption] and [ptvoSetMetaOption]);
    - [devices/schneider_electric.ts] (the local converters
      [tzLocal.fan_mode] and [fzLocal.schneider_powertag]).

    Conventions of the embedding.
    - A JavaScript number is a [number]: a rational, one of the two
      infinities, or NaN.  Rounding to binary64 is not modelled; the
      integer attributes of a ZCL frame and the products, differences and
      divisions by a power of two that the battery converter performs are
      exact in binary64.  Signed zero is not modelled: every divisor in the
      modelled code is an attribute of the frame or a literal.
    - A JavaScript object used as a dictionary is a [gmap string _] of
      its own properties.  Where the caller chooses the key ([device.meta],
      the table of [getFromLookup]) the properties of [Object.prototype]
      are read behind them; elsewhere a missing key reads as [undefined].
    - Code that mutates an object returns the new object; code that talks
      to the radio stack or keeps module-level state runs in the monad
      [Js], which threads a [World] and may throw. *)

From Stdlib Require Import QArith.Qcanon Ascii String.
From stdpp Require Import base numbers strings gmap list pretty sorting.

Local Open Scope Z_scope.

(** ** JavaScript numbers *)

Inductive number :=
  | Fin (q : Qc)
  | PInf
  | NInf
  | NaN.

#[global] Instance number_eq_dec : EqDecision number.
Proof. solve_decision. Defined.

Definition of_Z (z : Z) : number := Fin (Qc_of_Z z).

(** [ToNumber] on an attribute that may be absent: [undefined] is NaN. *)
Definition of_attr (o : option Z) : number :=
  match o with
  | Some z => of_Z z
  | None => NaN
  end.

(** The arithmetic and the comparisons. *)
Module Num.

Definition sgn (q : Qc) : comparison := (q ?= 0)%Qc.

Definition neg (a : number) : number :=
  match a with
  | Fin q => Fin (- q)%Qc
  | PInf => NInf
  | NInf => PInf
  | NaN => NaN
  end.

(** [a * b] *)
Definition mul (a b : number) : number :=
  match a, b with
  | NaN, _ | _, NaN => NaN
  | Fin x, Fin y => Fin (x * y)%Qc
  | Fin x, PInf | PInf, Fin x =>
      match sgn x with Eq => NaN | Gt => PInf | Lt => NInf end
  | Fin x, NInf | NInf, Fin x =>
      match sgn x with Eq => NaN | Gt => NInf | Lt => PInf end
  | PInf, PInf | NInf, NInf => PInf
  | PInf, NInf | NInf, PInf => NInf
  end.

(** [a + b] *)
Definition add (a b : number) : number :=
  match a, b with
  | NaN, _ | _, NaN => NaN
  | Fin x, Fin y => Fin (x + y)%Qc
  | PInf, NInf | NInf, PInf => NaN
  | PInf, _ | _, PInf => PInf
  | NInf, _ | _, NInf => NInf
  end.

(** [a - b] *)
Definition sub (a b : number) : number := add a (neg b).

(** [a / b]; a zero divisor is the positive zero. *)
Definition div (a b : number) : number :=
  match a, b with
  | NaN, _ | _, NaN => NaN
  | Fin x, Fin y =>
      match sgn y with
      | Eq => match sgn x with Eq => NaN | Gt => PInf | Lt => NInf end
      | _ => Fin (x / y)%Qc
      end
  | Fin _, (PInf | NInf) => Fin 0%Qc
  | PInf, Fin y => match sgn y with Lt => NInf | _ => PInf end
  | NInf, Fin y => match sgn y with Lt => PInf | _ => NInf end
  | (PInf | NInf), (PInf | NInf) => NaN
  end.

(** [a <= b]; every comparison with NaN is false. *)
Definition le (a b : number) : bool :=
  match a, b with
  | NaN, _ | _, NaN => false
  | Fin x, Fin y => bool_decide (x ≤ y)%Qc
  | NInf, _ | _, PInf => true
  | _, _ => false
  end.

(** [a < b] *)
Definition lt (a b : number) : bool :=
  match a, b with
  | NaN, _ | _, NaN => false
  | Fin x, Fin y => bool_decide (x < y)%Qc
  | PInf, _ | _, NInf => false
  | _, _ => true
  end.

(** [a >= b] and [a > b] *)
Definition ge (a b : number) : bool := le b a.
Definition gt (a b : number) : bool := lt b a.

End Num.

(** A number lies in the closed range from 0 to 100. *)
Definition in_percent_range (h : number) : Prop :=
  ∃ q, h = Fin q ∧ (Qc_of_Z 0 ≤ q)%Qc ∧ (q ≤ Qc_of_Z 100)%Qc.

(** ** JavaScript values, dictionaries and the effect monad *)

(** [VInherited key] is the function or object that a plain object
    inherits from [Object.prototype] under [key]. *)
Inductive value :=
  | VUndefined
  | VNull
  | VBool (b : bool)
  | VNum (n : number)
  | VStr (s : string)
  | VInherited (key : string).

#[global] Instance value_eq_dec : EqDecision value.
Proof. solve_decision. Defined.

(** [KeyValue] of [lib/types]. *)
Abbreviation KeyValue := (gmap string value).

(** The properties of [Object.prototype], which a plain object inherits. *)
Definition object_prototype_names : list string :=
  ["__defineGetter__"; "__defineSetter__"; "__lookupGetter__"; "__lookupSetter__";
   "__proto__"; "constructor"; "hasOwnProperty"; "isPrototypeOf";
   "propertyIsEnumerable"; "toLocaleString"; "toString"; "valueOf"].

(** What a plain object without an own property [key] reads under it. *)
Definition inherited (key : string) : value :=
  if bool_decide (key ∈ object_prototype_names) then VInherited key else VUndefined.

(** [o[key]] for a plain object [o], given by its own properties. *)
Definition plain_get (o : KeyValue) (key : string) : value :=
  match o !! key with
  | Some v => v
  | None => inherited key
  end.

(** [o[key] = v] for a plain object [o]: the own properties after the
    assignment.  An inherited [__proto__] is an accessor: it ignores a
    primitive, and [null] or an object replaces the prototype, after which
    [o] is no plain object any more; the model stops there ([None]). *)
Definition plain_set (o : KeyValue) (key : string) (v : value) : option KeyValue :=
  if bool_decide (key = "__proto__") && bool_decide (o !! key = None) then
    match v with
    | VNull | VInherited _ => None
    | _ => Some o
    end
  else Some (<[key := v]> o).

(** What [`${x}`] prints for a string that may be [undefined]. *)
Definition template (o : option string) : string :=
  match o with
  | Some s => s
  | None => "undefined"
  end.

(** A request handed to the radio stack.  [ReqWriteInherited] is a write
    whose payload holds, under the attribute, what a plain object inherits
    under [key]. *)
Inductive request :=
  | ReqWrite (endpointID : Z) (cluster : string) (payload : gmap string Z)
  | ReqWriteInherited (endpointID : Z) (cluster : string) (attribute key : string)
  | ReqRead (endpointID : Z) (cluster : string) (attributes : list string)
  | ReqGreenPowerResponse (endpointID : Z)
      (gpOptions tempMaster tempMasterTx gpdSrcID gpdCmd gpdCommandID : Z)
      (buffer : list Z) (srcEndpoint : Z).

(** The state outside a converter call: the per-key identifiers that
    [hasAlreadyProcessedMessage] remembers (latest first), the channel of
    the network, and the requests sent so far (latest first). *)
Record World := mkWorld {
  transactionStore : gmap string (list Z);
  channel : Z;
  sent : list request
}.

Inductive outcome (A : Type) :=
  | Returned (a : A)
  | Thrown (e : string).
Arguments Returned {A} a.
Arguments Thrown {A} e.

Definition Js (A : Type) : Type := World -> outcome A * World.

Definition ret {A} (a : A) : Js A := fun w => (Returned a, w).
Definition throw {A} (e : string) : Js A := fun w => (Thrown e, w).
Definition bind {A B} (c : Js A) (k : A -> Js B) : Js B :=
  fun w =>
    match c w with
    | (Returned a, w') => k a w'
    | (Thrown e, w') => (Thrown e, w')
    end.
Definition send (r : request) : Js () :=
  fun w => (Returned (), mkWorld (transactionStore w) (channel w) (r :: sent w)).
Definition getNetworkParameters : Js Z :=
  fun w => (Returned (channel w), w).

Declare Scope js_scope.
Delimit Scope js_scope with js.
Notation "x <- c ;; k" := (bind c (fun x => k))
  (at level 100, c at next level, right associativity) : js_scope.
Notation "c ;;; k" := (bind c (fun _ => k))
  (at level 100, right associativity) : js_scope.

(** Promotion of pure code that may throw. *)
Definition lift {A} (o : outcome A) : Js A :=
  fun w => (o, w).

(** ** Strings *)

Definition is_upper (c : ascii) : bool :=
  let n := N_of_ascii c in ((65 <=? n) && (n <=? 90))%N.

(** [String.prototype.toLowerCase] on the ASCII letters.  The result is
    only compared with ["on"], and no character outside ASCII lowers to
    [o] or [n]. *)
Definition lower_ascii (c : ascii) : ascii :=
  if is_upper c then ascii_of_N (N_of_ascii c + 32) else c.

Fixpoint toLowerCase (s : string) : string :=
  match s with
  | EmptyString => EmptyString
  | String c s' => String (lower_ascii c) (toLowerCase s')
  end.

Definition is_lower (c : ascii) : bool :=
  let n := N_of_ascii c in ((97 <=? n) && (n <=? 122))%N.

(** [String.prototype.toUpperCase] on the ASCII letters.  The result is
    only looked up among keys that hold a lower-case letter, which no
    upper-cased string equals. *)
Definition upper_ascii (c : ascii) : ascii :=
  if is_lower c then ascii_of_N (N_of_ascii c - 32) else c.

Fixpoint toUpperCase (s : string) : string :=
  match s with
  | EmptyString => EmptyString
  | String c s' => String (upper_ascii c) (toUpperCase s')
  end.


(** The characters of the class [[\r\n]]. *)
Definition is_newline (c : ascii) : bool :=
  let n := N_of_ascii c in ((n =? 10) || (n =? 13))%N.

(** [s.split(/[\r\n]+/)]: [cur] is the piece being read, [in_sep] tells
    that the previous character belonged to a separator. *)
Fixpoint split_go (in_sep : bool) (cur : string) (s : string) : list string :=
  match s with
  | EmptyString => [cur]
  | String c s' =>
      if is_newline c then
        if in_sep then split_go true "" s'
        else cur :: split_go true "" s'
      else split_go false (cur +:+ String c "") s'
  end.

Definition split_lines (s : string) : list string := split_go false "" s.

(** The value of a character of the class [[0-9A-F]]. *)
Definition hex_digit (c : ascii) : option N :=
  let n := N_of_ascii c in
  if ((48 <=? n) && (n <=? 57))%N then Some (n - 48)%N
  else if ((65 <=? n) && (n <=? 70))%N then Some (n - 55)%N
  else None.

(** [s.match(/^([0-9A-F]+)/)]: the longest leading run of upper-case
    hexadecimal digits, [None] ([null]) when it is empty. *)
Fixpoint hex_run (s : string) : string :=
  match s with
  | EmptyString => EmptyString
  | String c s' =>
      match hex_digit c with
      | Some _ => String c (hex_run s')
      | None => EmptyString
      end
  end.

Definition match_hex (s : string) : option string :=
  match hex_run s with
  | EmptyString => None
  | r => Some r
  end.

(** [Number.parseInt(s, 16)] on a string of upper-case hexadecimal
    digits. *)
Fixpoint parse_hex_go (acc : Z) (s : string) : Z :=
  match s with
  | EmptyString => acc
  | String c s' =>
      match hex_digit c with
      | Some d => parse_hex_go (16 * acc + Z.of_N d) s'
      | None => acc
      end
  end.

Definition parseInt16 (s : string) : Z := parse_hex_go 0 s.

(** The decimal digits of a canonical array index. *)
Definition dec_digit (c : ascii) : option N :=
  let n := N_of_ascii c in
  if ((48 <=? n) && (n <=? 57))%N then Some (n - 48)%N else None.

Fixpoint parse_dec_go (acc : N) (s : string) : option N :=
  match s with
  | EmptyString => Some acc
  | String c s' =>
      match dec_digit c with
      | Some d => parse_dec_go (10 * acc + d)%N s'
      | None => None
      end
  end.

(** A property key is an array index when it is the canonical decimal
    form of an integer below [2^32 - 1]. *)
Definition array_index (k : string) : option N :=
  match k with
  | EmptyString => None
  | _ =>
      match parse_dec_go 0%N k with
      | Some i =>
          if bool_decide (pretty i = k) && (i <? 4294967295)%N then Some i
          else None
      | None => None
      end
  end.

(** ** Arrays used as dictionaries

    [const endpointList: any = []] is an array that receives named
    properties.  An assignment to a property changes [length] only when the
    key is an array index. *)
Record JsArray := mkArray {
  arr_length : N;
  arr_props : gmap string Z
}.

Definition arr_empty : JsArray := mkArray 0%N ∅.

Definition arr_set (k : string) (v : Z) (a : JsArray) : JsArray :=
  mkArray
    (match array_index k with
     | Some i => N.max (arr_length a) (i + 1)
     | None => arr_length a
     end)
    (<[k := v]> (arr_props a)).

(** ** Devices, endpoints, definitions and messages *)

Record Endpoint := mkEndpoint {
  ID : Z;
  inputClusters : list string;
  outputClusters : list string;
  clusterAttributes : gmap string (gmap string Z)
}.


Record Device := mkDevice {
  ieeeAddr : string;
  endpoints : list Endpoint;
  meta : KeyValue
}.

(** [Zh.Device | DummyDevice]; a dummy device carries neither endpoints
    nor metadata, and [utils.isDummyDevice] is the test for [Dummy]. *)
Inductive device_arg :=
  | Real (d : Device)
  | Dummy.

(** A definition: the two options of its [meta] that the converters
    read, and its [endpoint] function. *)
Record Model := mkModel {
  multiEndpoint : option bool;
  model_endpoint : option (Device -> outcome (gmap string Z));
  publishDuplicateTransaction : option bool
}.

(** [Fz.Message]; the type of [data] depends on the cluster. *)
Record Msg (D : Type) := mkMsg {
  type : string;
  data : D;
  device : Device;
  endpoint : Endpoint;
  linkquality : Z
}.
Arguments mkMsg {D} _ _ _ _ _.
Arguments type {D} _.
Arguments data {D} _.
Arguments device {D} _.
Arguments endpoint {D} _.
Arguments linkquality {D} _.

(** The payload of an attribute report or a read response. *)
Abbreviation Attributes := (gmap string Z).

Record CommandFrame := mkCommandFrame {
  attributes : gmap string Z;
  clusterID : Z
}.

(** The payload of a green-power notification. *)
Record GreenPower := mkGreenPower {
  commandID : Z;
  frameCounter : Z;
  options : Z;
  gppNwkAddr : Z;
  srcID : Z;
  commandFrame : option CommandFrame
}.

Record Meta := mkMeta {
  meta_state : KeyValue
}.

Record ConvertSetResult := mkResult {
  state : KeyValue
}.

(** ** Helpers of [lib/utils] that the converters call *)

(** What a table of numbers holds under a key: a number of its own, or
    what it inherits from [Object.prototype]. *)
Inductive entry :=
  | Own (x : Z)
  | Inherited (key : string).

#[global] Instance entry_eq_dec : EqDecision entry.
Proof. solve_decision. Defined.


Section GetFromLookup.

(** [Number.prototype.toString], under which a number is a property key. *)
Variable number_to_string : number -> string.


End GetFromLookup.

(** Modelled from the spec: [utils.assertString] is not among the three
    source files.  The assertion passes a string on and throws on every
    other value ("throw on malformed input"). *)
Definition assertString (v : value) : Js string :=
  match v with
  | VStr s => ret s
  | _ => throw "Value is not a string"
  end.

(** Modelled from the spec: [utils.hasAlreadyProcessedMessage] is not
    among the three source files, and the spec does not describe it.  The
    model follows the helper of the library: with
    [meta.publishDuplicateTransaction] set it answers no and remembers
    nothing; otherwise it answers whether the identifier is among those
    remembered under the key, and remembers a new one in front of the
    others, of which it keeps five in all. *)
Definition hasAlreadyProcessedMessage {D} (msg : Msg D) (model : Model)
    (id : Z) (key : string) : Js bool :=
  fun w =>
    if bool_decide (publishDuplicateTransaction model = Some true) then
      (Returned false, w)
    else
      let transactionIDs := default [] (transactionStore w !! key) in
      if bool_decide (id ∈ transactionIDs) then (Returned true, w)
      else (Returned false,
            mkWorld (<[key := take 5 (id :: transactionIDs)]> (transactionStore w))
              (channel w) (sent w)).

(** ** The custom-devices file *)

Module Custom.

Definition switchTypesList : gmap string Z :=
  <["switch" := 0]> (<["multi-click" := 2]> ∅).

(** *** [tzLocal] *)

Definition multi_zig_sw_switch_type_key : list string :=
  ["switch_type_1"; "switch_type_2"; "switch_type_3"; "switch_type_4"].

Definition multi_zig_sw_switch_type_convertGet (entity : Endpoint) (key : string)
    (meta : Meta) : Js () :=
  send (ReqRead (ID entity) "genOnOffSwitchCfg" ["switchType"]).

Section SwitchType.

Variable number_to_string : number -> string.


End SwitchType.

(** *** [fzLocal] *)

Section Converters.

(** Helpers of [lib/utils] whose code is not part of the modelled files,
    and the exponentiation operator, are parameters of the converters. *)
Variable getKey : gmap string Z -> option Z -> option string.
Variable calibrateAndPrecisionRoundOptions : number -> KeyValue -> string -> number.
Variable postfixWithEndpointName :
  string -> Msg Attributes -> Model -> Meta -> string.
Variable pow : number -> number -> number.

(** [model.endpoint?.(msg.device) ?? {}] *)
Definition endpoint_map (model : Model) (d : Device) : Js (gmap string Z) :=
  match model_endpoint model with
  | Some f => lift (f d)
  | None => ret ∅
  end.

(** [multiEndpoint ? postfixWithEndpointName(name, msg, model, meta) : name] *)
Definition property_name (name : string) (model : Model) (msg : Msg Attributes)
    (meta : Meta) : string :=
  match multiEndpoint model with
  | Some true => postfixWithEndpointName name msg model meta
  | _ => name
  end.

(** [fzLocal.tirouter] *)
Definition tirouter_convert (model : Model) (msg : Msg Attributes)
    (options : KeyValue) (meta : Meta) : Js (option KeyValue) :=
  let result : KeyValue := {["linkquality" := VNum (of_Z (linkquality msg))]} in
  let result :=
    match data msg !! "4919" with
    | Some v => if bool_decide (v = 0) then result
                else <["transmit_power" := VNum (of_Z v)]> result
    | None => result
    end in
  ret (Some result).

(** [Number.parseFloat] of an integer attribute that may be absent. *)
Definition parseFloat (o : option Z) : number := of_attr o.

(** [fzLocal.humidity2] *)
Definition humidity2_convert (model : Model) (msg : Msg Attributes)
    (options : KeyValue) (meta : Meta) : Js (option KeyValue) :=
  let humidity := Num.div (parseFloat (data msg !! "measuredValue")) (of_Z 100) in
  let humidity := calibrateAndPrecisionRoundOptions humidity options "humidity" in
  if Num.ge humidity (of_Z 0) && Num.le humidity (of_Z 100) then
    let property := property_name "humidity" model msg meta in
    ret (Some {[property := VNum humidity]})
  else ret None.



(** [fzLocal.multi_zig_sw_battery] *)
Definition multi_zig_sw_battery_convert (model : Model) (msg : Msg Attributes)
    (options : KeyValue) (meta : Meta) : Js (option KeyValue) :=
  let voltage := Num.mul (of_attr (data msg !! "batteryVoltage")) (of_Z 100) in
  let battery := Num.div (Num.sub voltage (of_Z 2200)) (of_Z 8) in
  ret (Some (<["battery" := VNum (if Num.gt battery (of_Z 100) then of_Z 100 else battery)]>
               {["voltage" := VNum voltage]})).

Definition actionLookup : gmap Z string :=
  <[0 := "release"]> (<[1 := "single"]> (<[2 := "double"]>
    (<[3 := "triple"]> (<[4 := "hold"]> ∅)))).

(** [fzLocal.multi_zig_sw_switch_buttons] *)
Definition multi_zig_sw_switch_buttons_convert (model : Model) (msg : Msg Attributes)
    (options : KeyValue) (meta : Meta) : Js (option KeyValue) :=
  (eps <- endpoint_map model (device msg) ;;
   let button := getKey eps (Some (ID (endpoint msg))) in
   let value := data msg !! "presentValue" in
   let action := value ≫= fun v => actionLookup !! v in
   ret (Some {["action" := VStr (template button +:+ "_" +:+ template action)]}))%js.

(** [fzLocal.multi_zig_sw_switch_config] *)
Definition multi_zig_sw_switch_config_convert (model : Model) (msg : Msg Attributes)
    (options : KeyValue) (meta : Meta) : Js (option KeyValue) :=
  (eps <- endpoint_map model (device msg) ;;
   let channel := getKey eps (Some (ID (endpoint msg))) in
   let switchType := data msg !! "switchType" in
   let name :=
     match getKey switchTypesList switchType with
     | Some k => VStr k
     | None => VUndefined
     end in
   ret (Some {["switch_type_" +:+ template channel := name]}))%js.

End Converters.

(** The actions that the [MULTI-ZIG-SW] record exposes. *)
Definition multi_zig_sw_exposed_actions : list string :=
  ["single"; "double"; "triple"; "hold"; "release"].

(** The [endpoint] function of the [MULTI-ZIG-SW] record. *)
Definition multi_zig_sw_endpoint (device : Device) : outcome (gmap string Z) :=
  Returned (<["button_1" := 2]> (<["button_2" := 3]> (<["button_3" := 4]>
             (<["button_4" := 5]> ∅)))).
(** [ptvoGetMetaOption] *)
Definition ptvoGetMetaOption (device : device_arg) (key : string)
    (defaultValue : value) : value :=
  match device with
  | Real d =>
      let value := plain_get (meta d) key in
      if bool_decide (value = VUndefined) then defaultValue else value
  | Dummy => defaultValue
  end.

(** [ptvoSetMetaOption]: the device after the call, where [None] stands
    for a [null] device or key on the way in; the whole is [None] when the
    assignment leaves the plain objects (see [plain_set]). *)
Definition ptvoSetMetaOption (device : option Device) (key : option string)
    (v : value) : option (option Device) :=
  match device, key with
  | Some d, Some k =>
      meta' ← plain_set (meta d) k v;
      Some (Some (mkDevice (ieeeAddr d) (endpoints d) meta'))
  | _, _ => Some device
  end.

(** The [endpoint] function of the [ptvo.switch] record.  The decimal
    form of an endpoint number is exact ([pretty]); [Number.parseInt] is
    exact as well, which a binary64 number is below [2^53]. *)
Definition ptvo_switch_endpoint (device : device_arg) : outcome JsArray :=
  let endpointList := arr_empty in
  let deviceConfig := ptvoGetMetaOption device "device_config" (VStr "") in
  let endpointList :=
    match device with
    | Real d =>
        foldl (fun acc endpoint =>
                 let epId := ID endpoint in
                 let epName := "l" +:+ pretty epId in
                 arr_set epName epId acc)
              endpointList (endpoints d)
    | Dummy => endpointList
    end in
  if bool_decide (deviceConfig = VStr "") then
    let endpointList :=
      if bool_decide (arr_length endpointList = 0%N) then
        (* fallback code *)
        foldl (fun acc epId =>
                 let epName := "l" +:+ pretty epId in
                 arr_set epName epId acc)
              endpointList (seqZ 1 8)
      else endpointList in
    Returned (arr_set "action" 1 endpointList)
  else
    match deviceConfig with
    | VStr deviceConfig =>
        let deviceConfigArray := split_lines deviceConfig in
        let endpointList :=
          foldl (fun acc epConfig =>
                   match match_hex epConfig with
                   | None => acc
                   | Some matches0 =>
                       let epId := parseInt16 matches0 in
                       let epName := "l" +:+ pretty epId in
                       arr_set epName epId acc
                   end)
                endpointList deviceConfigArray in
        Returned (arr_set "action" 1 endpointList)
    | _ => Thrown "TypeError: deviceConfig.split is not a function"
    end.

End Custom.

(** ** [devices/schneider_electric.ts] *)

Module Schneider.

(** [if (attr.name !== undefined) ret.key = f(attr.name)] *)
Definition when_defined (o : option Z) (key : string) (f : Z -> number)
    (ret : KeyValue) : KeyValue :=
  match o with
  | Some v => <[key := VNum (f v)]> ret
  | None => ret
  end.

(** The branch [case 2820] (haElectricalMeasurement). *)
Definition electrical_measurement (attr : gmap string Z) (ret : KeyValue) : KeyValue :=
  let acCurrentDivisor := of_attr (attr !! "acCurrentDivisor") in
  let acVoltageDivisor := of_attr (attr !! "acVoltageDivisor") in
  let acFrequencyDivisor := of_attr (attr !! "acFrequencyDivisor") in
  let powerDivisor := of_attr (attr !! "powerDivisor") in
  let volt := fun v => Num.div (of_Z v) acVoltageDivisor in
  let curr := fun v => Num.div (of_Z v) acCurrentDivisor in
  let powr := fun v => Num.div (Num.mul (of_Z v) (of_Z 1000)) powerDivisor in
  let ret := when_defined (attr !! "rmsVoltage") "voltage_phase_a" volt ret in
  let ret := when_defined (attr !! "rmsVoltagePhB") "voltage_phase_b" volt ret in
  let ret := when_defined (attr !! "rmsVoltagePhC") "voltage_phase_c" volt ret in
  let ret := when_defined (attr !! "19200") "voltage_phase_ab" volt ret in
  let ret := when_defined (attr !! "19456") "voltage_phase_bc" volt ret in
  let ret := when_defined (attr !! "19712") "voltage_phase_ca" volt ret in
  let ret := when_defined (attr !! "rmsCurrent") "current_phase_a" curr ret in
  let ret := when_defined (attr !! "rmsCurrentPhB") "current_phase_b" curr ret in
  let ret := when_defined (attr !! "rmsCurrentPhC") "current_phase_c" curr ret in
  let ret := when_defined (attr !! "totalActivePower") "power" powr ret in
  let ret := when_defined (attr !! "totalApparentPower") "power_apparent" powr ret in
  let ret := when_defined (attr !! "acFrequency") "ac_frequency"
               (fun v => Num.div (of_Z v) acFrequencyDivisor) ret in
  let ret := when_defined (attr !! "activePower") "power_phase_a" powr ret in
  let ret := when_defined (attr !! "activePowerPhB") "power_phase_b" powr ret in
  let ret := when_defined (attr !! "activePowerPhC") "power_phase_c" powr ret in
  ret.

(** The branch [case 1794] (seMetering). *)
Definition metering (attr : gmap string Z) (ret : KeyValue) : KeyValue :=
  let divisor := of_attr (attr !! "divisor") in
  let scaled := fun val => Num.div (of_Z val) divisor in
  let ret := when_defined (attr !! "currentSummDelivered") "energy" scaled ret in
  let ret := when_defined (attr !! "16652") "energy_phase_a" scaled ret in
  let ret := when_defined (attr !! "16908") "energy_phase_b" scaled ret in
  let ret := when_defined (attr !! "17164") "energy_phase_c" scaled ret in
  let ret := when_defined (attr !! "powerFactor") "power_factor" of_Z ret in
  ret.

(** [fzLocal.schneider_powertag] *)
Definition schneider_powertag_convert (model : Model) (msg : Msg GreenPower)
    (opts : KeyValue) (meta : Meta) : Js (option KeyValue) :=
  if negb (bool_decide (type msg = "commandNotification")) then ret None
  else
    let commandID := commandID (data msg) in
    (dup <- hasAlreadyProcessedMessage msg model (frameCounter (data msg))
              (ieeeAddr (device msg) +:+ "_" +:+ pretty commandID) ;;
     if dup then ret None
     else
       let rxAfterTx := Z.land (options (data msg)) (Z.shiftl 1 11) in
       let ret0 : KeyValue := ∅ in
       r <- (if bool_decide (commandID = 0xa1) then
               match commandFrame (data msg) with
               | None => throw "TypeError: cannot read properties of undefined"
               | Some frame =>
                   let attr := attributes frame in
                   if bool_decide (clusterID frame = 2820) then
                     ret (electrical_measurement attr ret0)
                   else if bool_decide (clusterID frame = 1794) then
                     ret (metering attr ret0)
                   else ret ret0
               end
             else ret ret0) ;;
       (if bool_decide (rxAfterTx ≠ 0) then
          (* Send Schneider specific ACK to make PowerTag happy *)
          networkChannel <- getNetworkParameters ;;
          send (ReqGreenPowerResponse (ID (endpoint msg)) 0
                  (gppNwkAddr (data msg)) (networkChannel - 11) (srcID (data msg))
                  0xfe 0xfe [0] 242)
        else ret ()) ;;;
       ret (Some r))%js.

Section FanMode.

(** [tz.fan_mode.convertSet] of [converters/toZigbee]. *)
Variable tz_fan_mode_convertSet :
  Endpoint -> string -> value -> Meta -> Js ConvertSetResult.

(** [tzLocal.fan_mode.convertSet] *)
Definition fan_mode_convertSet (entity : Endpoint) (key : string) (v : value)
    (meta : Meta) : Js ConvertSetResult :=
  (s <- assertString v ;;
   let v := if bool_decide (toLowerCase s = "on") then VStr "low" else v in
   tz_fan_mode_convertSet entity key v meta)%js.

End FanMode.

End Schneider.

(** ** Vocabulary of the statements *)

Section Vocabulary.
Import Custom.

(** No character of the string is a line break. *)
Fixpoint one_line (s : string) : Prop :=
  match s with
  | EmptyString => True
  | String c s' => is_newline c = false ∧ one_line s'
  end.

(** Every character of the string is an upper-case hexadecimal digit. *)
Fixpoint all_hex (s : string) : Prop :=
  match s with
  | EmptyString => True
  | String c s' => is_Some (hex_digit c) ∧ all_hex s'
  end.

(** The string does not start with a hexadecimal digit. *)
Definition no_hex_ahead (s : string) : Prop :=
  match s with
  | EmptyString => True
  | String c _ => hex_digit c = None
  end.

(** [`l${epId}`] *)
Definition epName (epId : Z) : string := "l" +:+ pretty epId.

(** The loop [endpointList[`l${epId}`] = epId] over a list of numbers. *)
Definition add_endpoints (ids : list Z) (a : JsArray) : JsArray :=
  foldl (fun acc epId => arr_set (epName epId) epId acc) a ids.

(** The numbers that the configuration lines contribute. *)
Definition config_endpoints (deviceConfigArray : list string) : list Z :=
  omap (fun epConfig => parseInt16 <$> match_hex epConfig) deviceConfigArray.

(** The endpoints of a device; a dummy device has none. *)
Definition device_endpoints (device : device_arg) : list Endpoint :=
  match device with
  | Real d => endpoints d
  | Dummy => []
  end.

Import Schneider.

(** The key under which a notification is remembered:
    [`${msg.device.ieeeAddr}_${commandID}`]. *)
Definition frame_key (msg : Msg GreenPower) : string :=
  ieeeAddr (device msg) +:+ "_" +:+ pretty (commandID (data msg)).

(** The frame counter of the notification is among those remembered for
    its device and command. *)
Definition already_processed (msg : Msg GreenPower) (w : World) : Prop :=
  frameCounter (data msg) ∈ default [] (transactionStore w !! frame_key msg).

#[global] Instance already_processed_dec msg w : Decision (already_processed msg w).
Proof. unfold already_processed. apply _. Defined.

(** One call of a converter, as the dispatcher makes it. *)
Record call := mkCall {
  call_model : Model;
  call_msg : Msg GreenPower;
  call_options : KeyValue;
  call_meta : Meta
}.

(** The world after the converter has handled a sequence of calls. *)
Fixpoint handle_all (calls : list call) (w : World) : World :=
  match calls with
  | [] => w
  | c :: calls =>
      handle_all calls
        (schneider_powertag_convert (call_model c) (call_msg c) (call_options c)
           (call_meta c) w).2
  end.

(** The part of the converter after the duplicate check. *)
Definition powertag_body (msg : Msg GreenPower) : Js (option KeyValue) :=
  (let commandID := commandID (data msg) in
   let rxAfterTx := Z.land (options (data msg)) (Z.shiftl 1 11) in
   let ret0 : KeyValue := ∅ in
   r <- (if bool_decide (commandID = 0xa1) then
           match commandFrame (data msg) with
           | None => throw "TypeError: cannot read properties of undefined"
           | Some frame =>
               let attr := attributes frame in
               if bool_decide (clusterID frame = 2820) then
                 ret (electrical_measurement attr ret0)
               else if bool_decide (clusterID frame = 1794) then
                 ret (metering attr ret0)
               else ret ret0
           end
         else ret ret0) ;;
   (if bool_decide (rxAfterTx ≠ 0) then
      networkChannel <- getNetworkParameters ;;
      send (ReqGreenPowerResponse (ID (endpoint msg)) 0
              (gppNwkAddr (data msg)) (networkChannel - 11) (srcID (data msg))
              0xfe 0xfe [0] 242)
    else ret ()) ;;;
   ret (Some r))%js.

(** The world after the duplicate check of a notification that passes
    it. *)
Definition guard_world (model : Model) (msg : Msg GreenPower) (w : World) : World :=
  if bool_decide (publishDuplicateTransaction model = Some true) then w
  else
    mkWorld
      (<[frame_key msg :=
         take 5 (frameCounter (data msg)
                   :: default [] (transactionStore w !! frame_key msg))]>
         (transactionStore w))
      (channel w) (sent w).

(** The frame counter is among the [n] latest that are remembered for the
    device and command. *)
Definition recent (n : nat) (msg : Msg GreenPower) (w : World) : Prop :=
  frameCounter (data msg) ∈ take n (default [] (transactionStore w !! frame_key msg)).

(** Two notifications of one device with the same command and frame
    counter. *)
Definition same_frame (m1 m2 : Msg GreenPower) : Prop :=
  ieeeAddr (device m1) = ieeeAddr (device m2)
  ∧ commandID (data m1) = commandID (data m2)
  ∧ frameCounter (data m1) = frameCounter (data m2).


End Vocabulary.

(** ** Sample inputs *)

Import Custom Schneider.

Definition sample_endpoint : Endpoint := mkEndpoint 2 ["genPowerCfg"] [] ∅.
Definition sample_device : Device := mkDevice "0x00124b0001020304" [sample_endpoint] ∅.
Definition sample_model : Model := mkModel (Some true) None None.
Definition sample_world : World := mkWorld ∅ 11 [].
Definition sample_meta : Meta := mkMeta ∅.
Definition battery_report (v : Z) : Msg Attributes :=
  mkMsg "attributeReport" {["batteryVoltage" := v]} sample_device sample_endpoint 120.

Definition multi_zig_sw_model : Model :=
  mkModel (Some true) (Some multi_zig_sw_endpoint) None.
Definition sample_getKey (object : gmap string Z) (v : option Z) : option string :=
  fst <$> head (filter (λ kv, Some kv.2 = v) (map_to_list object)).
Definition button_report (v : Z) : Msg Attributes :=
  mkMsg "attributeReport" {["presentValue" := v]} sample_device sample_endpoint 120.

(** A stand-in for [tz.fan_mode.convertSet]: it writes the code of the
    mode to hvacFanCtrl and echoes the mode. *)
Definition sample_tz_fan_mode_convertSet (entity : Endpoint) (key : string) (v : value)
    (meta : Meta) : Js ConvertSetResult :=
  match v with
  | VStr s =>
      match (<["off" := 0]> (<["low" := 1]> (<["medium" := 2]> (<["high" := 3]>
               (<["on" := 4]> (<["auto" := 5]> (<["smart" := 6]> ∅)))))) : gmap string Z)
            !! s with
      | Some fanMode =>
          (send (ReqWrite (ID entity) "hvacFanCtrl" {["fanMode" := fanMode]}) ;;;
           ret (mkResult {["fan_mode" := v]}))%js
      | None => throw "Value not found in lookup"
      end
  | _ => throw "Expected string or number"
  end.


Definition sample_calibrate (n : number) (options : KeyValue) (type : string) : number := n.
Definition sample_postfix (name : string) (msg : Msg Attributes) (model : Model)
    (meta : Meta) : string :=
  name +:+ "_l" +:+ pretty (ID (endpoint msg)).
Definition humidity_report (v : Z) : Msg Attributes :=
  mkMsg "attributeReport" {["measuredValue" := v]} sample_device sample_endpoint 120.

Definition ptvo_device : Device :=
  mkDevice "0x00124b0001020304"
    [mkEndpoint 1 ["genBasic"; "genOnOff"] [] ∅; mkEndpoint 3 ["genOnOff"] [] ∅]
    {["device_config" := VStr (String "1" (String "W" (String (ascii_of_nat 13)
        (String (ascii_of_nat 10) "0AR,C"))))]}.


Definition powertag_device : Device := mkDevice "0x000000009f1c2d3e" [] ∅.
Definition greenPower_endpoint : Endpoint := mkEndpoint 242 [] ["greenPower"] ∅.
Definition powertag_model : Model := mkModel None None None.

(** A metering report: 123456 units delivered, 1000 units per kWh. *)
Definition metering_notification : Msg GreenPower :=
  mkMsg "commandNotification"
    (mkGreenPower 0xa1 4711 0 0x1a2b 0x9f1c2d3e
       (Some (mkCommandFrame
                (<["currentSummDelivered" := 123456]> {["divisor" := 1000]}) 1794)))
    powertag_device greenPower_endpoint 80.

(** An electrical measurement: 250 units of active power, 10 units per W. *)
Definition electrical_notification : Msg GreenPower :=
  mkMsg "commandNotification"
    (mkGreenPower 0xa1 4712 2048 0x1a2b 0x9f1c2d3e
       (Some (mkCommandFrame
                (<["totalActivePower" := 250]> {["powerDivisor" := 10]}) 2820)))
    powertag_device greenPower_endpoint 80.

Definition commissioning_notification : Msg GreenPower :=
  mkMsg "commandCommissioningNotification"
    (mkGreenPower 0xe0 1 0 0x1a2b 0x9f1c2d3e None)
    powertag_device greenPower_endpoint 80.


(** A report of the same tag with another frame counter. *)
Definition later_notification (frameCounter : Z) : Msg GreenPower :=
  mkMsg "commandNotification"
    (mkGreenPower 0xa1 frameCounter 0 0x1a2b 0x9f1c2d3e
       (Some (mkCommandFrame {["powerFactor" := 98]} 1794)))
    powertag_device greenPower_endpoint 80.

(** The world after the metering report and five later reports. *)
Definition world_after_six : World :=
  handle_all
    (mkCall powertag_model metering_notification ∅ sample_meta
       :: ((fun frameCounter =>
              mkCall powertag_model (later_notification frameCounter) ∅ sample_meta)
             <$> [4712; 4713; 4714; 4715; 4716]))
    sample_world.

(** ** Exposes of the custom-devices file

    An expose is kept as the calls that build it: the preset of
    [exposes.presets] and the modifiers applied to it, in order.  The
    rendering of an expose belongs to the expose framework. *)
Inductive access :=
  | ea_STATE
  | ea_STATE_SET
  | ea_ALL.

Inductive modifier :=
  | withEndpoint (endpointName : string)
  | withProperty (property : string)
  | withDescription (description : string)
  | withValueMin (z : Z)
  | withValueMax (z : Z)
  | withValueStep (z : Z)
  | withUnit (unit : string).

Inductive preset :=
  | e_preset (name : string)
  | e_text (name : string) (a : access)
  | e_numeric (name : string) (a : access)
  | e_action (values : list string).

Record Expose := mkExpose {
  base : preset;
  modifiers : list modifier
}.

#[global] Instance access_eq_dec : EqDecision access.
Proof. solve_decision. Defined.
#[global] Instance modifier_eq_dec : EqDecision modifier.
Proof. solve_decision. Defined.
#[global] Instance preset_eq_dec : EqDecision preset.
Proof. solve_decision. Defined.
#[global] Instance Expose_eq_dec : EqDecision Expose.
Proof. solve_decision. Defined.

(** [expose.push(x)] *)
Definition push {A} (x : A) (l : list A) : list A := l ++ [x].

(** [if (c) expose.push(x)] *)
Definition push_if {A} (c : bool) (x : A) (l : list A) : list A :=
  if c then push x l else l.

(** An options object whose properties are flags; a missing flag is
    [undefined], which is falsy. *)
Abbreviation Flags := (gmap string bool).

Definition truthy (o : Flags) (k : string) : bool :=
  bool_decide (o !! k = Some true).

(** [endpoint.supportsInputCluster(name)] and
    [endpoint.supportsOutputCluster(name)] *)
Definition supportsInputCluster (ep : Endpoint) (cluster : string) : bool :=
  bool_decide (cluster ∈ inputClusters ep).
Definition supportsOutputCluster (ep : Endpoint) (cluster : string) : bool :=
  bool_decide (cluster ∈ outputClusters ep).

(** [device.getEndpoint(ID)]: the first endpoint with that number; NaN
    ([None]) finds none. *)
Definition getEndpoint (d : Device) (epId : option Z) : option Endpoint :=
  epId ≫= fun i => head (filter (fun ep => ID ep = i) (endpoints d)).

Module PtvoExposes.

(** [ptvoAddStandardExposes]: the list of exposes, the options of the
    endpoint and the options of the device after the call. *)
Definition ptvoAddStandardExposes (endpoint : Endpoint) (expose : list Expose)
    (options : Flags) (deviceOptions : Flags) : list Expose * Flags * Flags :=
  let epId := ID endpoint in
  let epName := "l" +:+ pretty epId in
  let '(expose, options) :=
    if supportsInputCluster endpoint "lightingColorCtrl" then
      (push (mkExpose (e_preset "light_brightness_colorxy") [withEndpoint epName]) expose,
       <["exposed_colorcontrol" := true]>
         (<["exposed_analog" := true]> (<["exposed_onoff" := true]> options)))
    else if supportsInputCluster endpoint "genLevelCtrl" then
      (push (mkExpose (e_preset "light_brightness") [withEndpoint epName]) expose,
       <["exposed_levelcontrol" := true]>
         (<["exposed_analog" := true]> (<["exposed_onoff" := true]> options)))
    else (expose, options) in
  let expose :=
    if supportsInputCluster endpoint "genOnOff" then
      push_if (negb (truthy options "exposed_onoff"))
        (mkExpose (e_preset "switch") [withEndpoint epName]) expose
    else expose in
  let '(expose, options) :=
    if supportsInputCluster endpoint "genAnalogInput"
       || supportsOutputCluster endpoint "genAnalogInput" then
      if negb (truthy options "exposed_analog") then
        (push (mkExpose (e_text epName ea_ALL)
                 [withEndpoint epName; withProperty epName;
                  withDescription "State or sensor value"]) expose,
         <["exposed_analog" := true]> options)
      else (expose, options)
    else (expose, options) in
  let expose :=
    push_if (supportsInputCluster endpoint "msTemperatureMeasurement")
      (mkExpose (e_preset "temperature") [withEndpoint epName]) expose in
  let expose :=
    push_if (supportsInputCluster endpoint "msRelativeHumidity")
      (mkExpose (e_preset "humidity") [withEndpoint epName]) expose in
  let expose :=
    push_if (supportsInputCluster endpoint "msPressureMeasurement")
      (mkExpose (e_preset "pressure") [withEndpoint epName]) expose in
  let expose :=
    push_if (supportsInputCluster endpoint "msIlluminanceMeasurement")
      (mkExpose (e_preset "illuminance") [withEndpoint epName]) expose in
  let expose :=
    push_if (supportsInputCluster endpoint "msCO2")
      (mkExpose (e_preset "co2") []) expose in
  let expose :=
    push_if (supportsInputCluster endpoint "pm25Measurement")
      (mkExpose (e_preset "pm25") []) expose in
  let expose :=
    if supportsInputCluster endpoint "haElectricalMeasurement" then
      (* haElectricalMeasurement may expose only one value defined explicitly *)
      if negb (truthy options "exposed_voltage" || truthy options "exposed_current"
               || truthy options "exposed_power") then
        push (mkExpose (e_preset "power") [withEndpoint epName])
          (push (mkExpose (e_preset "current") [withEndpoint epName])
             (push (mkExpose (e_preset "voltage") [withEndpoint epName]) expose))
      else expose
    else expose in
  let expose :=
    if supportsInputCluster endpoint "seMetering" then
      push_if (negb (truthy options "exposed_energy"))
        (mkExpose (e_preset "energy") [withEndpoint epName]) expose
    else expose in
  let deviceOptions :=
    if supportsInputCluster endpoint "genPowerCfg" then
      <["expose_battery" := true]> deviceOptions
    else deviceOptions in
  let deviceOptions :=
    if supportsInputCluster endpoint "genMultistateInput"
       || supportsOutputCluster endpoint "genMultistateInput" then
      <["expose_action" := true]> deviceOptions
    else deviceOptions in
  (expose, options, deviceOptions).

(** *** String functions of the [exposes] function *)
(** [s.substring(n)] *)
Fixpoint str_drop (n : nat) (s : string) : string :=
  match n, s with
  | O, _ => s
  | S n, String _ s' => str_drop n s'
  | S _, EmptyString => EmptyString
  end.

(** [s.substr(0, n)] *)
Fixpoint str_take (n : nat) (s : string) : string :=
  match n, s with
  | S n, String c s' => String c (str_take n s')
  | _, _ => EmptyString
  end.

(** [s.substr(start, len)] *)
Definition substr (start len : nat) (s : string) : string :=
  str_take len (str_drop start s).

(** [s.split(",")] *)
Fixpoint split_comma_go (cur : string) (s : string) : list string :=
  match s with
  | EmptyString => [cur]
  | String c s' =>
      if Ascii.eqb c "," then cur :: split_comma_go "" s'
      else split_comma_go (cur +:+ String c "") s'
  end.

Definition split_comma (s : string) : list string := split_comma_go "" s.

Definition is_digit (c : ascii) : bool :=
  let n := N_of_ascii c in ((48 <=? n) && (n <=? 57))%N.

(** The length of the run of decimal digits at the end of the string. *)
Fixpoint trailing_digits (s : string) : nat :=
  match s with
  | EmptyString => O
  | String c s' =>
      let k := trailing_digits s' in
      if is_digit c && (k =? String.length s')%nat then S k else k
  end.

(** [s.search(/(\d+)$/)]: the index where the final run of digits starts,
    [None] for -1. *)
Definition search_trailing_digits (s : string) : option nat :=
  match trailing_digits s with
  | O => None
  | k => Some (String.length s - k)%nat
  end.

(** The characters that [parseInt] skips in front of the number. *)
Definition is_space (c : ascii) : bool :=
  let n := N_of_ascii c in
  ((9 <=? n) && (n <=? 13) || (n =? 32) || (n =? 160))%N.

Fixpoint skip_spaces (s : string) : string :=
  match s with
  | String c s' => if is_space c then skip_spaces s' else s
  | EmptyString => EmptyString
  end.

(** The leading decimal digits and their value. *)
Fixpoint dec_run (acc : option Z) (s : string) : option Z :=
  match s with
  | String c s' =>
      match dec_digit c with
      | Some d => dec_run (Some (10 * default 0 acc + Z.of_N d)) s'
      | None => acc
      end
  | EmptyString => acc
  end.

(** [Number.parseInt(s, 10)]; [None] is NaN. *)
Definition parseInt10 (s : string) : option Z :=
  match skip_spaces s with
  | String "-" s' => Z.opp <$> dec_run None s'
  | String "+" s' => dec_run None s'
  | s' => dec_run None s'
  end.

(** The value of a hexadecimal digit of either case. *)
Definition hex_digit_any (c : ascii) : option N :=
  let n := N_of_ascii c in
  if ((97 <=? n) && (n <=? 102))%N then Some (n - 87)%N else hex_digit c.

(** [Number.parseInt(s, 16)] on a string of at most one character. *)
Definition parseInt16_char (s : string) : option Z :=
  match s with
  | String c _ => Z.of_N <$> hex_digit_any c
  | EmptyString => None
  end.

(** What a number prints as in a template or a concatenation. *)
Definition num_to_string (n : option Z) : string :=
  match n with
  | Some z => pretty z
  | None => "NaN"
  end.

(** [s.replace("_", " ")]: the first underscore becomes a space. *)
Fixpoint replace_underscore (s : string) : string :=
  match s with
  | EmptyString => EmptyString
  | String c s' =>
      if Ascii.eqb c "_" then String " " s' else String c (replace_underscore s')
  end.

(** [allEndpointsSorted.sort()]: the order of the code units. *)
Definition string_le (a b : string) : Prop := String.leb a b = true.

#[global] Instance string_le_dec a b : Decision (string_le a b).
Proof. unfold string_le. apply _. Defined.

Definition sort_strings (l : list string) : list string := merge_sort string_le l.

(** *** The [exposes] function of [ptvo.switch] *)
(** [exposeDeviceOptions]: the options of the endpoints, under their
    names, and the flags of the device.  The names of the endpoints start
    with [l] and the flags with [expose_], so the two kinds of keys of the
    one object are kept apart. *)
Record DeviceOptions := mkDeviceOptions {
  ep_options : gmap string Flags;
  device_flags : Flags
}.

Definition infoLookup : gmap string string :=
  list_to_map
    [("C", "temperature"); ("%", "humidity"); ("m", "altitude"); ("Pa", "pressure");
     ("ppm", "quality"); ("psize", "particle_size"); ("V", "voltage");
     ("A", "current"); ("Wh", "energy"); ("W", "power"); ("Hz", "frequency");
     ("pf", "power_factor"); ("lx", "illuminance")].

(** A string that may be [undefined] is truthy when it is a non-empty
    string. *)
Definition truthy_string (o : option string) : bool :=
  match o with
  | Some (String _ _) => true
  | _ => false
  end.

Section Exposes.

(** [String.prototype.toUpperCase] *)
Variable toUpperCase : string -> string.

(** The first loop over the lines of the configuration: the number and
    the rewritten line of a line that starts with digits. *)
Definition normalise_line (epConfig : string) : option (Z * string) :=
  match match_hex epConfig with
  | None => None
  | Some matches0 =>
      let epId := parseInt16 matches0 in
      let epId2 := if bool_decide (epId < 10) then "0" +:+ pretty epId else pretty epId in
      Some (epId, epId2 +:+ str_drop (String.length matches0) epConfig)
  end.

Definition normalise_lines (deviceConfigArray : list string) : gset Z * list string :=
  foldl (fun '(allEndpoints, allEndpointsSorted) epConfig =>
           match normalise_line epConfig with
           | None => (allEndpoints, allEndpointsSorted)
           | Some (epId, epConfig) =>
               ({[epId]} ∪ allEndpoints, push epConfig allEndpointsSorted)
           end)
        (∅, []) deviceConfigArray.

(** The second loop: the endpoints that the configuration does not
    mention enter the list under their number. *)
Definition endpoint_entry (endpoint : Endpoint) : string :=
  let epConfig := pretty (ID endpoint) in
  if bool_decide (ID endpoint < 10) then "0" +:+ epConfig else epConfig.

Definition add_unlisted (eps : list Endpoint) (allEndpoints : gset Z)
    (allEndpointsSorted : list string) : list string :=
  foldl (fun allEndpointsSorted endpoint =>
           if bool_decide (ID endpoint ∈ allEndpoints) then allEndpointsSorted
           else push (endpoint_entry endpoint) allEndpointsSorted)
        allEndpointsSorted eps.

(** [Number.parseInt(epConfig.substr(0, 2), 10)] *)
Definition entry_id (epConfig : string) : option Z :=
  parseInt10 (substr 0 2 epConfig).

(** The branch of a GPIO state: the preset that the description names. *)
Definition state_preset (valueDescription : string) : preset :=
  if bool_decide (valueDescription = "g") then e_preset "gas"
  else if bool_decide (valueDescription = "n") then e_preset "noise_detected"
  else if bool_decide (valueDescription = "o") then e_preset "occupancy"
  else if bool_decide (valueDescription = "p") then e_preset "presence"
  else if bool_decide (valueDescription = "m") then e_preset "smoke"
  else if bool_decide (valueDescription = "s") then e_preset "sos"
  else if bool_decide (valueDescription = "t") then e_preset "tamper"
  else if bool_decide (valueDescription = "v") then e_preset "vibration"
  else if bool_decide (valueDescription = "w") then e_preset "water_leak"
  else e_preset "contact".

(** The branch of an analog value: the expose and the options of the
    endpoint after it. *)
Definition analog_expose (epName : string) (epStateType : access)
    (valueId valueDescription valueUnit : string) (exposeEpOptions : Flags)
  : Expose * Flags :=
  let idxPos := search_trailing_digits valueId in
  let '(valueName, valueNumIndex, valueId) :=
    if String.prefix "mcpm" valueId || String.prefix "ncpm" valueId then
      let num := parseInt16_char (substr 4 1 valueId) in
      (Some (substr 0 4 valueId +:+ num_to_string num), None, valueId)
    else
      match idxPos with
      | Some idxPos =>
          (None, Some (str_drop idxPos valueId), substr 0 idxPos valueId)
      | None => (None, None, valueId)
      end in
  let valueName :=
    match valueName with
    | Some _ => valueName
    | None => infoLookup !! valueId
    end in
  let valueName :=
    match valueName with
    | None =>
        if truthy_string valueNumIndex then Some ("val" +:+ template valueNumIndex)
        else None
    | Some _ => valueName
    end in
  let exposeEpOptions :=
    if truthy_string valueName then
      <["exposed_" +:+ template valueName := true]> exposeEpOptions
    else exposeEpOptions in
  let valueName :=
    match valueName with
    | None => epName
    | Some valueName => valueName +:+ "_" +:+ epName
    end in
  let valueDescription :=
    if bool_decide (valueDescription = "") then
      if truthy_string (infoLookup !! valueId) then
        replace_underscore (template (infoLookup !! valueId))
      else "Sensor value"
    else valueDescription in
  let valueDescription :=
    toUpperCase (substr 0 1 valueDescription) +:+ str_drop 1 valueDescription in
  let valueDescription :=
    if truthy_string valueNumIndex then
      valueDescription +:+ " " +:+ template valueNumIndex
    else valueDescription in
  let valueUnit :=
    if bool_decide (valueUnit = "") && truthy_string (infoLookup !! valueId) then valueId
    else valueUnit in
  let exposeEpOptions := <["exposed_analog" := true]> exposeEpOptions in
  (mkExpose (e_numeric valueName epStateType)
     [withValueMin (-9999999); withValueMax 9999999; withValueStep 1;
      withDescription valueDescription; withUnit valueUnit],
   exposeEpOptions).

(** One round of the third loop: the entry, the entry after it, and the
    exposes and options so far. *)
Definition expose_entry (d : Device) (epConfig : string) (next : option string)
    (st : list Expose * DeviceOptions) : list Expose * DeviceOptions :=
  let '(expose, exposeDeviceOptions) := st in
  let epId := entry_id epConfig in
  let epConfig := str_drop 2 epConfig in
  let epName := "l" +:+ num_to_string epId in
  let epValueAccessRights := substr 0 1 epConfig in
  let epStateType :=
    if bool_decide (epValueAccessRights = "W") || bool_decide (epValueAccessRights = "*")
    then ea_STATE_SET else ea_STATE in
  let valueConfig := str_drop 1 epConfig in
  let valueConfigItems :=
    if bool_decide (valueConfig = "") then [] else split_comma valueConfig in
  let valueId := default "" (valueConfigItems !! 0%nat) in
  let valueDescription := default "" (valueConfigItems !! 1%nat) in
  let valueUnit := default "" (valueConfigItems !! 2%nat) in
  let exposeEpOptions := default ∅ (ep_options exposeDeviceOptions !! epName) in
  let '(expose, exposeEpOptions) :=
    if bool_decide (valueId = "*") then
      (* GPIO output (Generic) *)
      (push (mkExpose (e_preset "switch") [withEndpoint epName]) expose,
       <["exposed_onoff" := true]> exposeEpOptions)
    else if bool_decide (valueId = "#") then
      (* GPIO state *)
      (push (mkExpose (state_preset valueDescription)
               [withProperty "state"; withEndpoint epName]) expose,
       <["exposed_onoff" := true]> exposeEpOptions)
    else if bool_decide (0 < length valueConfigItems)%nat then
      let '(x, exposeEpOptions) :=
        analog_expose epName epStateType valueId valueDescription valueUnit
          exposeEpOptions in
      (push x expose, exposeEpOptions)
    else (expose, exposeEpOptions) in
  let epConfigNext :=
    match next with
    | Some (String c s) => String c s
    | _ => "-1"
    end in
  let epIdNext := entry_id epConfigNext in
  let unchanged :=
    (expose,
     mkDeviceOptions (<[epName := exposeEpOptions]> (ep_options exposeDeviceOptions))
       (device_flags exposeDeviceOptions)) in
  if bool_decide (is_Some epId ∧ epIdNext = epId) then unchanged
  else
    match getEndpoint d epId with
    | None => unchanged
    | Some endpoint =>
        let '(expose, exposeEpOptions, flags) :=
          ptvoAddStandardExposes endpoint expose exposeEpOptions
            (device_flags exposeDeviceOptions) in
        (expose,
         mkDeviceOptions (<[epName := exposeEpOptions]> (ep_options exposeDeviceOptions))
           flags)
    end.

(** The third loop. *)
Fixpoint expose_entries (d : Device) (allEndpointsSorted : list string)
    (st : list Expose * DeviceOptions) : list Expose * DeviceOptions :=
  match allEndpointsSorted with
  | [] => st
  | epConfig :: rest =>
      expose_entries d rest (expose_entry d epConfig (head rest) st)
  end.

(** The exposes that end the list. *)
Definition closing_exposes (exposeDeviceOptions : Flags) (expose : list Expose)
  : list Expose :=
  let expose :=
    if truthy exposeDeviceOptions "expose_action" then
      push (mkExpose (e_action ["single"; "double"; "triple"; "hold"; "release"]) [])
        expose
    else expose in
  if truthy exposeDeviceOptions "expose_battery" then
    push (mkExpose (e_preset "battery") []) expose
  else expose.

(** The [exposes] function of the [ptvo.switch] record. *)
Definition ptvo_switch_exposes (device : device_arg) (options : KeyValue)
  : outcome (list Expose) :=
  let expose : list Expose := [] in
  let exposeDeviceOptions := mkDeviceOptions ∅ ∅ in
  let deviceConfig := ptvoGetMetaOption device "device_config" (VStr "") in
  match device with
  | Dummy =>
      (* fallback code *)
      let expose :=
        foldl (fun expose epId =>
                 let epName := "l" +:+ pretty epId in
                 push (mkExpose (e_preset "switch") [withEndpoint epName])
                   (push (mkExpose (e_text epName ea_ALL)
                            [withEndpoint epName; withProperty epName;
                             withDescription "State or sensor value"]) expose))
              expose (seqZ 1 8) in
      Returned (closing_exposes (device_flags exposeDeviceOptions) expose)
  | Real d =>
      if bool_decide (deviceConfig = VStr "") then
        let '(expose, flags) :=
          foldl (fun '(expose, flags) endpoint =>
                   let exposeEpOptions : Flags := ∅ in
                   let '(expose, _, flags) :=
                     ptvoAddStandardExposes endpoint expose exposeEpOptions flags in
                   (expose, flags))
                (expose, device_flags exposeDeviceOptions) (endpoints d) in
        Returned (closing_exposes flags expose)
      else
        match deviceConfig with
        | VStr deviceConfig =>
            (* device configuration description from a device *)
            let deviceConfigArray := split_lines deviceConfig in
            let '(allEndpoints, allEndpointsSorted) := normalise_lines deviceConfigArray in
            let allEndpointsSorted :=
              add_unlisted (endpoints d) allEndpoints allEndpointsSorted in
            let allEndpointsSorted := sort_strings allEndpointsSorted in
            let '(expose, exposeDeviceOptions) :=
              expose_entries d allEndpointsSorted (expose, exposeDeviceOptions) in
            Returned (closing_exposes (device_flags exposeDeviceOptions) expose)
        | _ => Thrown "TypeError: deviceConfig.split is not a function"
        end
  end.

End Exposes.

End PtvoExposes.

Import PtvoExposes.

(** ** Vocabulary and sample inputs of the further properties *)

(** The numbers that end up in the endpoint map of [ptvo.switch]. *)
Definition endpoint_numbers (device : device_arg) (deviceConfig : string) : list Z :=
  (ID <$> device_endpoints device)
  ++ (if bool_decide (deviceConfig = "") then seqZ 1 8
      else config_endpoints (split_lines deviceConfig)).

(** Every entry of the array is a number under its own name. *)
Definition well_named (a : JsArray) : Prop :=
  ∀ k v, arr_props a !! k = Some v → k = epName v.

Definition misconfigured_device : Device :=
  mkDevice "0x00124b0001020304" [mkEndpoint 1 ["genBasic"] [] ∅]
    {["device_config" := VNum (of_Z 5)]}.

Definition tirouter_report (power : Z) : Msg Attributes :=
  mkMsg "attributeReport" {["4919" := power]} sample_device sample_endpoint 96.

(** The acknowledgement that the PowerTag expects. *)
Definition powertag_ack (msg : Msg GreenPower) (w : World) : request :=
  ReqGreenPowerResponse (ID (endpoint msg)) 0 (gppNwkAddr (data msg))
    (channel w - 11) (srcID (data msg)) 0xfe 0xfe [0] 242.

(** The attributes that the converter reads from a metering frame and from
    an electrical-measurement frame, with the property each one feeds. *)
Definition metering_properties : list (string * string) :=
  [("currentSummDelivered", "energy"); ("16652", "energy_phase_a");
   ("16908", "energy_phase_b"); ("17164", "energy_phase_c");
   ("powerFactor", "power_factor")].

Definition electrical_properties : list (string * string) :=
  [("rmsVoltage", "voltage_phase_a"); ("rmsVoltagePhB", "voltage_phase_b");
   ("rmsVoltagePhC", "voltage_phase_c"); ("19200", "voltage_phase_ab");
   ("19456", "voltage_phase_bc"); ("19712", "voltage_phase_ca");
   ("rmsCurrent", "current_phase_a"); ("rmsCurrentPhB", "current_phase_b");
   ("rmsCurrentPhC", "current_phase_c"); ("totalActivePower", "power");
   ("totalApparentPower", "power_apparent"); ("acFrequency", "ac_frequency");
   ("activePower", "power_phase_a"); ("activePowerPhB", "power_phase_b");
   ("activePowerPhC", "power_phase_c")].

(** The properties that a frame makes the converter publish. *)
Definition published (frame : CommandFrame) (property : string) : Prop :=
  ∃ attribute,
    is_Some (attributes frame !! attribute)
    ∧ ((clusterID frame = 1794 ∧ (attribute, property) ∈ metering_properties)
       ∨ (clusterID frame = 2820 ∧ (attribute, property) ∈ electrical_properties)).

(** A notification that the converter leaves undecoded ([case 0xa3]). *)
Definition status_notification : Msg GreenPower :=
  mkMsg "commandNotification"
    (mkGreenPower 0xa3 4713 0 0x1a2b 0x9f1c2d3e None)
    powertag_device greenPower_endpoint 80.

(** A metering report of a tag that sends no divisor. *)
Definition undivided_notification : Msg GreenPower :=
  mkMsg "commandNotification"
    (mkGreenPower 0xa1 4714 0 0x1a2b 0x9f1c2d3e
       (Some (mkCommandFrame {["currentSummDelivered" := 123456]} 1794)))
    powertag_device greenPower_endpoint 80.

(** What the converters need of [utils.getKey]: a key it returns holds the
    value, and it returns a key whenever one holds the value. *)
Definition getKey_finds (getKey : gmap string Z → option Z → option string) : Prop :=
  (∀ object v k, getKey object v = Some k → ∃ x, v = Some x ∧ object !! k = Some x)
  ∧ (∀ object x k, object !! k = Some x → is_Some (getKey object (Some x))).

Definition switch_config_report (switchType : Z) : Msg Attributes :=
  mkMsg "attributeReport" {["switchType" := switchType]} sample_device sample_endpoint 120.

(** The endpoint map of the [MULTI-ZIG-SW] record. *)
Definition multi_zig_sw_buttons : gmap string Z :=
  <["button_1" := 2]> (<["button_2" := 3]> (<["button_3" := 4]>
    (<["button_4" := 5]> ∅))).

Definition button_report_from (endpointID v : Z) : Msg Attributes :=
  mkMsg "attributeReport" {["presentValue" := v]} sample_device
    (mkEndpoint endpointID ["genMultistateInput"] [] ∅) 120.

(** The list of [x] when [c] holds, and the empty list otherwise. *)
Definition when (c : bool) (x : Expose) : list Expose := if c then [x] else [].

(** The endpoints that the first branch of [ptvoAddStandardExposes]
    takes for a light. *)
Definition is_light (ep : Endpoint) : bool :=
  supportsInputCluster ep "lightingColorCtrl" || supportsInputCluster ep "genLevelCtrl".

(** The exposes that [ptvoAddStandardExposes] appends for an endpoint
    whose options are [options]. *)
Definition standard_exposes (ep : Endpoint) (options : Flags) : list Expose :=
  let epName := "l" +:+ pretty (ID ep) in
  let at_ep := fun name => mkExpose (e_preset name) [withEndpoint epName] in
  when (supportsInputCluster ep "lightingColorCtrl") (at_ep "light_brightness_colorxy")
  ++ when (negb (supportsInputCluster ep "lightingColorCtrl")
           && supportsInputCluster ep "genLevelCtrl") (at_ep "light_brightness")
  ++ when (supportsInputCluster ep "genOnOff" && negb (is_light ep)
           && negb (truthy options "exposed_onoff")) (at_ep "switch")
  ++ when ((supportsInputCluster ep "genAnalogInput"
            || supportsOutputCluster ep "genAnalogInput")
           && negb (is_light ep) && negb (truthy options "exposed_analog"))
       (mkExpose (e_text epName ea_ALL)
          [withEndpoint epName; withProperty epName;
           withDescription "State or sensor value"])
  ++ when (supportsInputCluster ep "msTemperatureMeasurement") (at_ep "temperature")
  ++ when (supportsInputCluster ep "msRelativeHumidity") (at_ep "humidity")
  ++ when (supportsInputCluster ep "msPressureMeasurement") (at_ep "pressure")
  ++ when (supportsInputCluster ep "msIlluminanceMeasurement") (at_ep "illuminance")
  ++ when (supportsInputCluster ep "msCO2") (mkExpose (e_preset "co2") [])
  ++ when (supportsInputCluster ep "pm25Measurement") (mkExpose (e_preset "pm25") [])
  ++ (if supportsInputCluster ep "haElectricalMeasurement"
         && negb (truthy options "exposed_voltage" || truthy options "exposed_current"
                  || truthy options "exposed_power")
      then [at_ep "voltage"; at_ep "current"; at_ep "power"] else [])
  ++ when (supportsInputCluster ep "seMetering" && negb (truthy options "exposed_energy"))
       (at_ep "energy").

(** The expose of a preset at an endpoint, and the text expose of an
    endpoint. *)
Definition at_endpoint (name : string) (ep : Endpoint) : Expose :=
  mkExpose (e_preset name) [withEndpoint ("l" +:+ pretty (ID ep))].

Definition text_at (ep : Endpoint) : Expose :=
  let epName := "l" +:+ pretty (ID ep) in
  mkExpose (e_text epName ea_ALL)
    [withEndpoint epName; withProperty epName; withDescription "State or sensor value"].

(** [`0${epId}`] below 10 and [epId] itself from 10 on. *)
Definition two_digits (epId : Z) : string :=
  if bool_decide (epId < 10) then "0" +:+ pretty epId else pretty epId.

Definition action_expose : Expose :=
  mkExpose (e_action ["single"; "double"; "triple"; "hold"; "release"]) [].
Definition battery_expose : Expose := mkExpose (e_preset "battery") [].

(** The exposes that close the list, and no others. *)
Definition is_closing (x : Expose) : bool :=
  bool_decide (x = action_expose ∨ x = battery_expose).

Definition has_multistate (ep : Endpoint) : bool :=
  supportsInputCluster ep "genMultistateInput"
  || supportsOutputCluster ep "genMultistateInput".

(** No expose of the list is one of the two that close it. *)
Definition no_closing (l : list Expose) : Prop :=
  Forall (fun x => is_closing x = false) l.

(** The endpoint names that an expose carries. *)
Definition endpoint_names (x : Expose) : list string :=
  omap (fun m => match m with withEndpoint n => Some n | _ => None end) (modifiers x).

(** Every endpoint name of the exposes satisfies [P]. *)
Definition names_in (P : string → Prop) (l : list Expose) : Prop :=
  Forall (fun x => Forall P (endpoint_names x)) l.

(** A stand-in for [toUpperCase] on the ASCII letters. *)
Definition sample_toUpperCase (s : string) : string :=
  string_of_list_ascii
    ((fun c => let n := N_of_ascii c in
               if ((97 <=? n) && (n <=? 122))%N then ascii_of_N (n - 32) else c)
       <$> list_ascii_of_string s).

(** A dimmable light that also reports its battery. *)
Definition light_endpoint : Endpoint :=
  mkEndpoint 4 ["genOnOff"; "genLevelCtrl"; "genPowerCfg"] [] ∅.

(** * Properties *)

(** ** Arithmetic of integer attributes *)

Lemma sgn_of_Z (z : Z) : Num.sgn (Qc_of_Z z) = (z ?= 0).
Proof.
  unfold Num.sgn. 
  destruct (Z.compare_spec z 0) as [->|H|H].
  - reflexivity.
  - apply Z2Qc_inj_lt in H. rewrite Z2Qc_inj_0 in H. exact H.
  - apply Z2Qc_inj_lt in H. rewrite Z2Qc_inj_0 in H. 
    apply Qcgt_alt. exact H.
Qed.

Lemma mul_of_Z (a b : Z) : Num.mul (of_Z a) (of_Z b) = of_Z (a * b).
Proof. unfold Num.mul, of_Z. by rewrite Z2Qc_inj_mul. Qed.

Lemma sub_of_Z (a b : Z) : Num.sub (of_Z a) (of_Z b) = of_Z (a - b).
Proof. unfold Num.sub, Num.add, Num.neg, of_Z. by rewrite Z2Qc_inj_sub. Qed.

Lemma div_of_Z (a b : Z) :
  b ≠ 0 → Num.div (of_Z a) (of_Z b) = Fin (Qc_of_Z a / Qc_of_Z b)%Qc.
Proof.
  intros Hb. unfold Num.div, of_Z. rewrite sgn_of_Z.
  destruct (Z.compare_spec b 0); [done | done | done].
Qed.

Lemma Qc_lt_div (c a b : Z) :
  0 < b → (Qc_of_Z c < Qc_of_Z a / Qc_of_Z b)%Qc ↔ c * b < a.
Proof.
  intros Hb.
  assert (Hb' : (0 < Qc_of_Z b)%Qc).
  { apply Z2Qc_inj_lt in Hb. by rewrite Z2Qc_inj_0 in Hb. }
  assert (Hne : Qc_of_Z b ≠ 0%Qc).
  { intros E. rewrite E in Hb'. by apply (irreflexivity Qclt) in Hb'. }
  rewrite (Qcmult_lt_mono_pos_r _ _ (Qc_of_Z b) Hb').
  rewrite test_field by done.
  rewrite <- Z2Qc_inj_mul. symmetry. apply Z2Qc_inj_lt.
Qed.

(** ** The converters of the custom-devices file *)

(** C7: for every genPowerCfg report, [fzLocal.multi_zig_sw_battery]
    returns [voltage = batteryVoltage * 100] and a [battery] that never
    exceeds 100; when [batteryVoltage] is at most 30 the battery is exactly
    [(batteryVoltage * 100 - 2200) / 8], with no lower cap, and above 30 it
    is 100. *)
Theorem multi_zig_sw_battery_capped (model : Model) (msg : Msg Attributes)
    (options : KeyValue) (meta : Meta) (w : World) :
  let batteryVoltage := data msg !! "batteryVoltage" in
  let voltage := Num.mul (of_attr batteryVoltage) (of_Z 100) in
  ∃ battery : number,
    multi_zig_sw_battery_convert model msg options meta w
      = (Returned (Some (<["battery" := VNum battery]> {["voltage" := VNum voltage]})), w)
    ∧ Num.gt battery (of_Z 100) = false
    ∧ battery ≠ PInf
    ∧ (∀ q, battery = Fin q → (q ≤ Qc_of_Z 100)%Qc)
    ∧ (∀ v, batteryVoltage = Some v →
         voltage = of_Z (v * 100)
         ∧ (v ≤ 30 → battery = Fin (Qc_of_Z (v * 100 - 2200) / Qc_of_Z 8)%Qc)
         ∧ (30 < v → battery = of_Z 100)).
Proof.
  intros batteryVoltage voltage.
  unfold multi_zig_sw_battery_convert, ret.
  fold batteryVoltage. fold voltage.
  destruct batteryVoltage as [v|] eqn:Hbv.
  - assert (Hvolt : voltage = of_Z (v * 100)) by apply mul_of_Z.
    rewrite Hvolt, sub_of_Z, div_of_Z by done.
    unfold Num.gt at 1, Num.lt at 1. cbn [of_Z].
    destruct (decide (v ≤ 30)) as [Hle|Hgt].
    + rewrite bool_decide_eq_false_2.
      2:{ rewrite Qc_lt_div by done. lia. }
      eexists. split; [reflexivity|]. split_and!.
      * unfold Num.gt, Num.lt. apply bool_decide_eq_false_2.
        rewrite Qc_lt_div by done. lia.
      * done.
      * intros q [= <-]. apply Qcnot_lt_le. rewrite Qc_lt_div by done. lia.
      * intros v' [= <-]. split_and!; [done | done | lia].
    + rewrite bool_decide_eq_true_2.
      2:{ rewrite Qc_lt_div by done. lia. }
      eexists. split; [reflexivity|]. split_and!.
      * unfold Num.gt, Num.lt, of_Z. apply bool_decide_eq_false_2.
        apply (irreflexivity Qclt).
      * done.
      * intros q [= <-]. apply Qcle_refl.
      * intros v' [= <-]. split_and!; [done | lia | done].
  - exists NaN. split_and!; done.
Qed.

Lemma multi_zig_sw_battery_capped_witness :
  ∃ battery,
    multi_zig_sw_battery_convert sample_model (battery_report 20) ∅ sample_meta sample_world
      = (Returned (Some (<["battery" := VNum battery]> {["voltage" := VNum (of_Z 2000)]})),
         sample_world)
    ∧ battery = Fin (Qc_of_Z (-200) / Qc_of_Z 8)%Qc.
Proof.
  destruct (multi_zig_sw_battery_capped sample_model (battery_report 20) ∅
              sample_meta sample_world) as (b & Hrun & _ & _ & _ & Hv).
  destruct (Hv 20) as (Hvolt & Hle & _); [reflexivity|].
  exists b. split.
  - rewrite Hrun, Hvolt. reflexivity.
  - apply Hle. lia.
Defined.

(** C10 as stated fails on the keys that a plain object inherits: a
    string stored under [__proto__] is ignored and the key reads as the
    prototype, and [toString], which was never set, does not read as the
    default. *)
Lemma ptvo_meta_option_inherited :
  (∃ d',
     ptvoSetMetaOption (Some sample_device) (Some "__proto__") (VStr "1W")
       = Some (Some d')
     ∧ ptvoGetMetaOption (Real d') "__proto__" (VStr "") ≠ VStr "1W")
  ∧ meta sample_device !! "toString" = None
  ∧ ptvoGetMetaOption (Real sample_device) "toString" (VStr "") ≠ VStr "".
Proof.
  split_and!.
  - exists sample_device. split; [reflexivity|]. vm_compute. discriminate.
  - reflexivity.
  - vm_compute. discriminate.
Qed.

Lemma inherited_outside (key : string) :
  key ∉ object_prototype_names → inherited key = VUndefined.
Proof. intros Hout. unfold inherited. by rewrite bool_decide_eq_false_2. Qed.

Lemma inherited_inside (key : string) :
  key ∈ object_prototype_names → inherited key = VInherited key.
Proof. intros Hin. unfold inherited. by rewrite bool_decide_eq_true_2. Qed.

(** C10, amended: [ptvoSetMetaOption] followed by [ptvoGetMetaOption]
    returns the value that was set, whatever the default, for a device
    that is not a dummy, a key that is neither null nor [__proto__] and a
    value that is not [undefined].  A key that holds [undefined] reads as
    the default; a key that was never set reads as the default unless
    [Object.prototype] has a property of that name, and then it reads as
    what is inherited. *)
Theorem ptvo_meta_option_round_trip (d : Device) (k : string) (v dflt : value) :
  (k ≠ "__proto__" → v ≠ VUndefined →
     ∃ d', ptvoSetMetaOption (Some d) (Some k) v = Some (Some d')
           ∧ ptvoGetMetaOption (Real d') k dflt = v)
  ∧ (meta d !! k = Some VUndefined → ptvoGetMetaOption (Real d) k dflt = dflt)
  ∧ (meta d !! k = None → k ∉ object_prototype_names →
     ptvoGetMetaOption (Real d) k dflt = dflt)
  ∧ (meta d !! k = None → k ∈ object_prototype_names →
     ptvoGetMetaOption (Real d) k dflt = VInherited k).
Proof.
  split_and!.
  - intros Hk Hv. unfold ptvoSetMetaOption, plain_set.
    rewrite (bool_decide_eq_false_2 (k = "__proto__")) by done.
    eexists. split; [reflexivity|].
    unfold ptvoGetMetaOption, plain_get. cbn [meta].
    rewrite lookup_insert_eq. by rewrite bool_decide_eq_false_2.
  - intros Hown. unfold ptvoGetMetaOption, plain_get. by rewrite Hown.
  - intros Hown Hout. unfold ptvoGetMetaOption, plain_get.
    by rewrite Hown, inherited_outside.
  - intros Hown Hin. unfold ptvoGetMetaOption, plain_get.
    by rewrite Hown, inherited_inside.
Qed.

Lemma ptvo_meta_option_round_trip_witness :
  (∃ d', ptvoSetMetaOption (Some sample_device) (Some "device_config") (VStr "1W")
           = Some (Some d')
         ∧ ptvoGetMetaOption (Real d') "device_config" (VStr "") = VStr "1W")
  ∧ ptvoGetMetaOption (Real sample_device) "device_config" (VStr "") = VStr ""
  ∧ ptvoGetMetaOption (Real sample_device) "valueOf" (VStr "") = VInherited "valueOf".
Proof.
  destruct (ptvo_meta_option_round_trip sample_device "device_config" (VStr "1W") (VStr ""))
    as (Hset & _ & Hget & _).
  destruct (ptvo_meta_option_round_trip sample_device "valueOf" (VStr "1W") (VStr ""))
    as (_ & _ & _ & Hinherited).
  split_and!.
  - apply Hset; discriminate.
  - apply Hget; [reflexivity|]. vm_compute.
    intros H. repeat (inversion H as [|? ? ? H']; clear H; rename H' into H).
  - apply Hinherited; [reflexivity|]. vm_compute. repeat constructor.
Defined.

(** C9: a genMultistateInput report whose [presentValue] is none of 0, 1,
    2, 3, 4 is not skipped by [fzLocal.multi_zig_sw_switch_buttons]: the
    result is an [action] whose text is the button name followed by
    [_undefined], which is not one of the exposed actions. *)
Theorem multi_zig_sw_switch_buttons_undefined
    (getKey : gmap string Z → option Z → option string)
    (model : Model) (msg : Msg Attributes) (options : KeyValue) (meta : Meta)
    (w : World) (eps : gmap string Z) :
  endpoint_map model (device msg) w = (Returned eps, w) →
  (∀ v, data msg !! "presentValue" = Some v → ¬ (0 ≤ v ≤ 4)) →
  let button := getKey eps (Some (ID (endpoint msg))) in
  multi_zig_sw_switch_buttons_convert getKey model msg options meta w
    = (Returned (Some {["action" := VStr (template button +:+ "_undefined")]}), w)
  ∧ "undefined" ∉ multi_zig_sw_exposed_actions.
Proof.
  intros Heps Hout button. split.
  - unfold multi_zig_sw_switch_buttons_convert, bind. rewrite Heps.
    fold button. unfold ret. do 4 f_equal.
    destruct (data msg !! "presentValue") as [v|] eqn:Hv; [|done].
    specialize (Hout v eq_refl). cbn [mbind option_bind].
    unfold actionLookup.
    rewrite !lookup_insert_ne by lia. by rewrite lookup_empty.
  - unfold multi_zig_sw_exposed_actions. rewrite !elem_of_cons, elem_of_nil.
    intros H. repeat destruct H as [H|H]; done.
Qed.

Lemma multi_zig_sw_switch_buttons_undefined_witness :
  multi_zig_sw_switch_buttons_convert sample_getKey multi_zig_sw_model (button_report 7)
      ∅ sample_meta sample_world
    = (Returned (Some {["action" := VStr "button_1_undefined"]}), sample_world).
Proof.
  destruct (multi_zig_sw_switch_buttons_undefined sample_getKey multi_zig_sw_model
              (button_report 7) ∅ sample_meta sample_world
              (<["button_1" := 2]> (<["button_2" := 3]> (<["button_3" := 4]>
                 (<["button_4" := 5]> ∅)))))
    as [Hrun _].
  - reflexivity.
  - intros v Hv. vm_compute in Hv. injection Hv as <-. lia.
  - rewrite Hrun. vm_compute. reflexivity.
Defined.











(** ** The converters of [devices/schneider_electric.ts] *)

Lemma lower_ascii_o (c : ascii) :
  lower_ascii c = "o"%char ↔ c = "o"%char ∨ c = "O"%char.
Proof.
  split.
  - destruct c as [[] [] [] [] [] [] [] []]; vm_compute; intros H;
      first [discriminate H | by left | by right].
  - intros [-> | ->]; reflexivity.
Qed.

Lemma lower_ascii_n (c : ascii) :
  lower_ascii c = "n"%char ↔ c = "n"%char ∨ c = "N"%char.
Proof.
  split.
  - destruct c as [[] [] [] [] [] [] [] []]; vm_compute; intros H;
      first [discriminate H | by left | by right].
  - intros [-> | ->]; reflexivity.
Qed.

Lemma toLowerCase_on (s : string) :
  toLowerCase s = "on" ↔ s ∈ ["on"; "On"; "oN"; "ON"].
Proof.
  rewrite !elem_of_cons, elem_of_nil. split.
  - destruct s as [|c1 [|c2 [|c3 s]]]; cbn [toLowerCase]; try discriminate.
    intros [= H1 H2].
    apply lower_ascii_o in H1 as [-> | ->]; apply lower_ascii_n in H2 as [-> | ->];
      tauto.
  - intros [-> | [-> | [-> | [-> | []]]]]; reflexivity.
Qed.

(** C8: [tzLocal.fan_mode.convertSet] is [tz.fan_mode.convertSet] at
    ["low"] for a string whose lower-case form is ["on"], is
    [tz.fan_mode.convertSet] at the value itself for every other string,
    and throws for a value that is not a string. *)
Theorem fan_mode_convertSet_refines
    (tz_fan_mode_convertSet : Endpoint → string → value → Meta → Js ConvertSetResult)
    (entity : Endpoint) (key : string) (v : value) (meta : Meta) (w : World) :
  (∀ s, v = VStr s → toLowerCase s = "on" →
     fan_mode_convertSet tz_fan_mode_convertSet entity key v meta w
       = tz_fan_mode_convertSet entity key (VStr "low") meta w)
  ∧ (∀ s, v = VStr s → toLowerCase s ≠ "on" →
     fan_mode_convertSet tz_fan_mode_convertSet entity key v meta w
       = tz_fan_mode_convertSet entity key v meta w)
  ∧ ((∀ s, v ≠ VStr s) →
     ∃ e, fan_mode_convertSet tz_fan_mode_convertSet entity key v meta w = (Thrown e, w)).
Proof.
  unfold fan_mode_convertSet, bind, assertString. split_and!.
  - intros s -> Hon. cbn [ret]. by rewrite bool_decide_eq_true_2.
  - intros s -> Hoff. cbn [ret]. by rewrite bool_decide_eq_false_2.
  - intros Hns. destruct v as [| | | |s|]; try (eexists; reflexivity).
    by destruct (Hns s).
Qed.

Lemma fan_mode_convertSet_refines_witness :
  fan_mode_convertSet sample_tz_fan_mode_convertSet sample_endpoint "fan_mode"
      (VStr "ON") sample_meta sample_world
    = (Returned (mkResult {["fan_mode" := VStr "low"]}),
       mkWorld ∅ 11 [ReqWrite 2 "hvacFanCtrl" {["fanMode" := 1]}])
  ∧ fan_mode_convertSet sample_tz_fan_mode_convertSet sample_endpoint "fan_mode"
      (VStr "high") sample_meta sample_world
    = (Returned (mkResult {["fan_mode" := VStr "high"]}),
       mkWorld ∅ 11 [ReqWrite 2 "hvacFanCtrl" {["fanMode" := 3]}])
  ∧ ∃ e, fan_mode_convertSet sample_tz_fan_mode_convertSet sample_endpoint "fan_mode"
      (VNum (of_Z 1)) sample_meta sample_world = (Thrown e, sample_world).
Proof.
  split_and!.
  - destruct (fan_mode_convertSet_refines sample_tz_fan_mode_convertSet sample_endpoint
                "fan_mode" (VStr "ON") sample_meta sample_world) as (Hon & _ & _).
    rewrite (Hon "ON"); reflexivity.
  - destruct (fan_mode_convertSet_refines sample_tz_fan_mode_convertSet sample_endpoint
                "fan_mode" (VStr "high") sample_meta sample_world) as (_ & Hother & _).
    rewrite (Hother "high"); [reflexivity | reflexivity | discriminate].
  - destruct (fan_mode_convertSet_refines sample_tz_fan_mode_convertSet sample_endpoint
                "fan_mode" (VNum (of_Z 1)) sample_meta sample_world) as (_ & _ & Hthrow).
    apply Hthrow. discriminate.
Defined.

(** ** The humidity converter *)

Lemma in_percent_range_test (h : number) :
  Num.ge h (of_Z 0) && Num.le h (of_Z 100) = true ↔ in_percent_range h.
Proof.
  unfold in_percent_range, Num.ge, Num.le, of_Z.
  destruct h as [q| | |]; cbn.
  - rewrite andb_true_iff, !bool_decide_eq_true. split.
    + intros [H0 H100]. by exists q.
    + by intros (q' & [= <-] & H0 & H100).
  - split; [done | by intros (q & ? & _)].
  - split; [done | by intros (q & ? & _)].
  - split; [done | by intros (q & ? & _)].
Qed.

(** C4: [fzLocal.humidity2] publishes the humidity (the measured value
    over 100, calibrated and rounded) when it lies in the closed range
    from 0 to 100, and returns nothing for every other value. *)
Theorem humidity2_range
    (calibrateAndPrecisionRoundOptions : number → KeyValue → string → number)
    (postfixWithEndpointName : string → Msg Attributes → Model → Meta → string)
    (model : Model) (msg : Msg Attributes) (options : KeyValue) (meta : Meta)
    (w : World) :
  let measured := Num.div (parseFloat (data msg !! "measuredValue")) (of_Z 100) in
  let humidity := calibrateAndPrecisionRoundOptions measured options "humidity" in
  let property := property_name postfixWithEndpointName "humidity" model msg meta in
  (in_percent_range humidity →
     humidity2_convert calibrateAndPrecisionRoundOptions postfixWithEndpointName
       model msg options meta w
     = (Returned (Some {[property := VNum humidity]}), w))
  ∧ (¬ in_percent_range humidity →
     humidity2_convert calibrateAndPrecisionRoundOptions postfixWithEndpointName
       model msg options meta w
     = (Returned None, w))
  ∧ (∀ z, data msg !! "measuredValue" = Some z →
     measured = Fin (Qc_of_Z z / Qc_of_Z 100)%Qc).
Proof.
  intros measured humidity property.
  unfold humidity2_convert. fold measured. fold humidity. fold property.
  split_and!.
  - intros Hin. apply in_percent_range_test in Hin. by rewrite Hin.
  - intros Hout. rewrite <- in_percent_range_test in Hout.
    apply not_true_is_false in Hout. by rewrite Hout.
  - intros z Hz. unfold measured, parseFloat. rewrite Hz. cbn [of_attr].
    by apply div_of_Z.
Qed.

Lemma humidity2_range_witness :
  humidity2_convert sample_calibrate sample_postfix sample_model (humidity_report 4550)
      ∅ sample_meta sample_world
    = (Returned (Some {["humidity_l2" := VNum (Fin (Qc_of_Z 4550 / Qc_of_Z 100)%Qc)]}),
       sample_world)
  ∧ humidity2_convert sample_calibrate sample_postfix sample_model (humidity_report 20000)
      ∅ sample_meta sample_world
    = (Returned None, sample_world).
Proof.
  split.
  - destruct (humidity2_range sample_calibrate sample_postfix sample_model
                (humidity_report 4550) ∅ sample_meta sample_world) as (Hin & _ & Hval).
    rewrite Hin.
    + rewrite (Hval 4550); reflexivity.
    + apply in_percent_range_test. vm_compute. reflexivity.
  - destruct (humidity2_range sample_calibrate sample_postfix sample_model
                (humidity_report 20000) ∅ sample_meta sample_world) as (_ & Hout & _).
    apply Hout. rewrite <- in_percent_range_test. vm_compute. discriminate.
Defined.

(** ** The endpoint map of [ptvo.switch] *)

Example split_lines_ptvo :
  split_lines (String "1" (String "W" (String (ascii_of_nat 13)
        (String (ascii_of_nat 10) "0AR,C")))) = ["1W"; "0AR,C"].
Proof. reflexivity. Qed.

Example split_lines_edges :
  split_lines (String (ascii_of_nat 10) (String "7" (String (ascii_of_nat 10) "")))
    = [""; "7"; ""].
Proof. reflexivity. Qed.

Example match_hex_run : match_hex "0AR,C" = Some "0A" ∧ match_hex "abc" = None.
Proof. split; reflexivity. Qed.

Example parseInt16_value : parseInt16 "0A" = 10 ∧ parseInt16 "FF" = 255.
Proof. split; reflexivity. Qed.

(** *** The string functions *)

Lemma append_nil (t : string) : "" +:+ t = t.
Proof. reflexivity. Qed.

Lemma append_cons (c : ascii) (s t : string) : String c s +:+ t = String c (s +:+ t).
Proof. reflexivity. Qed.

Lemma append_empty_r (s : string) : s +:+ "" = s.
Proof. induction s as [|c s IH]; [done|]. by rewrite append_cons, IH. Qed.

Lemma append_snoc (s t : string) (c : ascii) :
  (s +:+ String c "") +:+ t = s +:+ String c t.
Proof. induction s as [|d s IH]; [done|]. by rewrite !append_cons, IH. Qed.

Lemma split_go_line (cur line : string) (c : ascii) (s : string) :
  one_line line → is_newline c = true →
  split_go false cur (line +:+ String c s) = (cur +:+ line) :: split_go true "" s.
Proof.
  revert cur. induction line as [|d line IH]; intros cur Hline Hc.
  - rewrite append_nil. cbn [split_go]. by rewrite Hc, append_empty_r.
  - destruct Hline as [Hd Hline]. rewrite append_cons. cbn [split_go]. rewrite Hd.
    by rewrite IH, append_snoc.
Qed.

Lemma split_go_last (cur line : string) :
  one_line line → split_go false cur line = [cur +:+ line].
Proof.
  revert cur. induction line as [|d line IH]; intros cur Hline.
  - cbn [split_go]. by rewrite append_empty_r.
  - destruct Hline as [Hd Hline]. cbn [split_go]. rewrite Hd.
    by rewrite IH, append_snoc.
Qed.

(** The pieces of [split]: a line ends at the first line break, a run of
    line breaks is one separator, and the rest of the string follows. *)
Lemma split_lines_line (line : string) (c : ascii) (s : string) :
  one_line line → is_newline c = true →
  split_lines (line +:+ String c s) = line :: split_go true "" s.
Proof. intros. unfold split_lines. by rewrite split_go_line. Qed.

Lemma split_lines_last (line : string) :
  one_line line → split_lines line = [line].
Proof. intros. unfold split_lines. by rewrite split_go_last. Qed.

Lemma split_go_separator (c : ascii) (s : string) :
  split_go true "" (String c s)
  = if is_newline c then split_go true "" s else split_lines (String c s).
Proof. unfold split_lines. cbn [split_go]. by destruct (is_newline c). Qed.

(** The match of [/^([0-9A-F]+)/] is the longest leading run of digits. *)
Lemma hex_run_spec (s : string) :
  ∃ rest, s = hex_run s +:+ rest ∧ all_hex (hex_run s) ∧ no_hex_ahead rest.
Proof.
  induction s as [|c s (rest & Hs & Hall & Hrest)].
  - by exists "".
  - cbn [hex_run]. destruct (hex_digit c) as [d|] eqn:Hc.
    + exists rest. rewrite append_cons. cbn [all_hex].
      split_and!; [congruence | by rewrite Hc | done | done].
    + exists (String c s). by rewrite append_nil.
Qed.

Lemma match_hex_spec (line digits : string) :
  match_hex line = Some digits →
  digits ≠ "" ∧ all_hex digits ∧ ∃ rest, line = digits +:+ rest ∧ no_hex_ahead rest.
Proof.
  unfold match_hex. intros Hm.
  destruct (hex_run_spec line) as (rest & Hline & Hall & Hrest).
  destruct (hex_run line) as [|c r] eqn:Hr; [done|].
  injection Hm as <-. split_and!; [done | done | by exists rest].
Qed.

(** [parseInt] reads the digits in base 16, most significant first. *)
Lemma parse_hex_go_snoc (acc : Z) (s : string) (c : ascii) (d : N) :
  all_hex s → hex_digit c = Some d →
  parse_hex_go acc (s +:+ String c "") = 16 * parse_hex_go acc s + Z.of_N d.
Proof.
  revert acc. induction s as [|e s IH]; intros acc Hall Hc.
  - rewrite append_nil. cbn [parse_hex_go]. by rewrite Hc.
  - destruct Hall as [[x Hx] Hall]. rewrite append_cons. cbn [parse_hex_go].
    rewrite Hx. by apply IH.
Qed.

Lemma parseInt16_snoc (s : string) (c : ascii) (d : N) :
  all_hex s → hex_digit c = Some d →
  parseInt16 (s +:+ String c "") = 16 * parseInt16 s + Z.of_N d.
Proof. apply parse_hex_go_snoc. Qed.

(** *** The loops of the endpoint function *)

Lemma add_endpoints_cons (i : Z) (ids : list Z) (a : JsArray) :
  add_endpoints (i :: ids) a = add_endpoints ids (arr_set (epName i) i a).
Proof. reflexivity. Qed.


Lemma epName_inj (i j : Z) : epName i = epName j → i = j.
Proof.
  change (String "l" (pretty i) = String "l" (pretty j) → i = j).
  intros [= H]. by apply (inj pretty) in H.
Qed.

Lemma epName_not_index (i : Z) : array_index (epName i) = None.
Proof. reflexivity. Qed.

Lemma epName_not_action (i : Z) : epName i ≠ "action".
Proof. discriminate. Qed.

Lemma arr_set_epName_length (i : Z) (a : JsArray) :
  arr_length (arr_set (epName i) i a) = arr_length a.
Proof. reflexivity. Qed.

Lemma add_endpoints_length (ids : list Z) (a : JsArray) :
  arr_length (add_endpoints ids a) = arr_length a.
Proof.
  revert a. induction ids as [|i ids IH]; intros a; [done|].
  by rewrite add_endpoints_cons, IH.
Qed.

Lemma add_endpoints_keeps (ids : list Z) (a : JsArray) (i : Z) :
  arr_props a !! epName i = Some i →
  arr_props (add_endpoints ids a) !! epName i = Some i.
Proof.
  revert a. induction ids as [|j ids IH]; intros a Ha; [done|].
  rewrite add_endpoints_cons. apply IH.
  cbn [arr_set arr_props].
  destruct (decide (epName j = epName i)) as [E|NE].
  - rewrite E, lookup_insert_eq. by apply epName_inj in E as ->.
  - by rewrite lookup_insert_ne.
Qed.

Lemma add_endpoints_adds (ids : list Z) (a : JsArray) (i : Z) :
  i ∈ ids → arr_props (add_endpoints ids a) !! epName i = Some i.
Proof.
  revert a. induction ids as [|j ids IH]; intros a Hin.
  - by apply elem_of_nil in Hin.
  - rewrite add_endpoints_cons.
    apply elem_of_cons in Hin as [<- | Hin].
    + apply add_endpoints_keeps. cbn [arr_set arr_props]. apply lookup_insert_eq.
    + by apply IH.
Qed.

Lemma fold_endpoints (eps : list Endpoint) (a : JsArray) :
  foldl (fun acc endpoint =>
           let epId := ID endpoint in
           let epName := "l" +:+ pretty epId in
           arr_set epName epId acc) a eps
  = add_endpoints (ID <$> eps) a.
Proof.
  revert a. induction eps as [|ep eps IH]; intros a; [done|].
  cbn [foldl fmap list_fmap]. rewrite IH. reflexivity.
Qed.

Lemma fold_config (lines : list string) (a : JsArray) :
  foldl (fun acc epConfig =>
           match match_hex epConfig with
           | None => acc
           | Some matches0 =>
               let epId := parseInt16 matches0 in
               let epName := "l" +:+ pretty epId in
               arr_set epName epId acc
           end) a lines
  = add_endpoints (config_endpoints lines) a.
Proof.
  revert a. induction lines as [|l lines IH]; intros a; [done|].
  cbn [foldl config_endpoints omap list_omap]. rewrite IH.
  fold (config_endpoints lines).
  by destruct (match_hex l).
Qed.

(** C1: when the stored device configuration is a string (or is not
    set), the [endpoint] function of [ptvo.switch] returns a mapping that
    has [l<ID>] at [ID] for every endpoint of the device and [action] at 1;
    when the configuration is not empty, every line with a leading run of
    the digits [0-9A-F] contributes [l<epId>] at [epId], the hexadecimal
    value of the run. *)
Theorem ptvo_switch_endpoint_contains (device : device_arg) (deviceConfig : string) :
  ptvoGetMetaOption device "device_config" (VStr "") = VStr deviceConfig →
  ∃ endpointList,
    ptvo_switch_endpoint device = Returned endpointList
    ∧ (∀ ep, ep ∈ device_endpoints device →
         arr_props endpointList !! ("l" +:+ pretty (ID ep)) = Some (ID ep))
    ∧ arr_props endpointList !! "action" = Some 1
    ∧ (deviceConfig ≠ "" →
       ∀ line digits,
         line ∈ split_lines deviceConfig →
         match_hex line = Some digits →
         let epId := parseInt16 digits in
         arr_props endpointList !! ("l" +:+ pretty epId) = Some epId).
Proof.
  intros Hcfg. unfold ptvo_switch_endpoint. rewrite Hcfg.
  set (a0 := match device with
             | Real d => foldl _ arr_empty (endpoints d)
             | Dummy => arr_empty
             end).
  assert (Ha0 : a0 = add_endpoints (ID <$> device_endpoints device) arr_empty).
  { unfold a0. destruct device as [d|]; [apply fold_endpoints | done]. }
  clearbody a0. subst a0.
  set (a0 := add_endpoints (ID <$> device_endpoints device) arr_empty).
  assert (Heps : ∀ ep, ep ∈ device_endpoints device →
                       arr_props a0 !! epName (ID ep) = Some (ID ep)).
  { intros ep Hep. apply add_endpoints_adds. by apply (list_elem_of_fmap_2 ID). }
  destruct (decide (deviceConfig = "")) as [-> | Hne].
  - rewrite bool_decide_eq_true_2 by done.
    rewrite bool_decide_eq_true_2 by apply add_endpoints_length.
    eexists. split; [reflexivity|]. split_and!.
    + intros ep Hep. cbn [arr_set arr_props].
      rewrite lookup_insert_ne by (symmetry; apply epName_not_action).
      fold (add_endpoints (seqZ 1 8) a0). apply add_endpoints_keeps. by apply Heps.
    + cbn [arr_set arr_props]. apply lookup_insert_eq.
    + done.
  - rewrite bool_decide_eq_false_2 by congruence.
    rewrite fold_config.
    eexists. split; [reflexivity|]. split_and!.
    + intros ep Hep. cbn [arr_set arr_props].
      rewrite lookup_insert_ne by (symmetry; apply epName_not_action).
      apply add_endpoints_keeps. by apply Heps.
    + cbn [arr_set arr_props]. apply lookup_insert_eq.
    + intros _ line digits Hline Hdigits. cbv zeta. cbn [arr_set arr_props].
      rewrite lookup_insert_ne by (symmetry; apply epName_not_action).
      apply add_endpoints_adds. unfold config_endpoints.
      apply list_elem_of_omap. exists line. split; [done|].
      by rewrite Hdigits.
Qed.

Lemma ptvo_switch_endpoint_contains_witness :
  ∃ endpointList,
    ptvo_switch_endpoint (Real ptvo_device) = Returned endpointList
    ∧ arr_props endpointList !! "l3" = Some 3
    ∧ arr_props endpointList !! "action" = Some 1
    ∧ arr_props endpointList !! "l10" = Some 10.
Proof.
  destruct (ptvo_switch_endpoint_contains (Real ptvo_device)
              (String "1" (String "W" (String (ascii_of_nat 13)
                 (String (ascii_of_nat 10) "0AR,C")))))
    as (endpointList & Hrun & Heps & Haction & Hconfig); [reflexivity|].
  exists endpointList. split_and!.
  - exact Hrun.
  - apply (Heps (mkEndpoint 3 ["genOnOff"] [] ∅)). cbn. repeat constructor.
  - exact Haction.
  - apply (Hconfig ltac:(discriminate) "0AR,C" "0A").
    + rewrite split_lines_ptvo. repeat constructor.
    + reflexivity.
Defined.

(** The [length] of [endpointList] stays 0, since no key is an array
    index: with an empty configuration the numbers 1 to 8 are added
    whatever the endpoints of the device. *)
Remark ptvo_switch_endpoint_fallback (device : device_arg) :
  ptvoGetMetaOption device "device_config" (VStr "") = VStr "" →
  ∃ endpointList,
    ptvo_switch_endpoint device = Returned endpointList
    ∧ arr_length endpointList = 0%N
    ∧ ∀ epId, 1 ≤ epId ≤ 8 →
        arr_props endpointList !! ("l" +:+ pretty epId) = Some epId.
Proof.
  intros Hcfg. unfold ptvo_switch_endpoint. rewrite Hcfg.
  set (a0 := match device with
             | Real d => foldl _ arr_empty (endpoints d)
             | Dummy => arr_empty
             end).
  assert (Ha0 : a0 = add_endpoints (ID <$> device_endpoints device) arr_empty).
  { unfold a0. destruct device as [d|]; [apply fold_endpoints | done]. }
  rewrite Ha0.
  rewrite bool_decide_eq_true_2 by done.
  rewrite bool_decide_eq_true_2 by apply add_endpoints_length.
  eexists. split; [reflexivity|]. split.
  - cbn [arr_set arr_length]. 
    change (arr_length (add_endpoints (seqZ 1 8)
              (add_endpoints (ID <$> device_endpoints device) arr_empty)) = 0%N).
    by rewrite !add_endpoints_length.
  - intros epId Hid. cbn [arr_set arr_props].
    rewrite lookup_insert_ne by (symmetry; apply epName_not_action).
    apply (add_endpoints_adds (seqZ 1 8)). apply elem_of_seqZ. lia.
Qed.

(** ** The PowerTag converter *)

Lemma powertag_unfold (model : Model) (msg : Msg GreenPower) (opts : KeyValue)
    (meta : Meta) :
  schneider_powertag_convert model msg opts meta
  = if negb (bool_decide (type msg = "commandNotification")) then ret None
    else (dup <- hasAlreadyProcessedMessage msg model (frameCounter (data msg))
                   (frame_key msg) ;;
          if dup then ret None else powertag_body msg)%js.
Proof. reflexivity. Qed.

(** The body keeps the transaction store, and its result does not depend
    on the world. *)
Lemma powertag_body_store (msg : Msg GreenPower) (w : World) :
  transactionStore (powertag_body msg w).2 = transactionStore w.
Proof.
  unfold powertag_body, bind, ret, throw, send, getNetworkParameters.
  repeat (case_match; simplify_eq/=; try done).
Qed.


Lemma powertag_other_type (model : Model) (msg : Msg GreenPower) (opts : KeyValue)
    (meta : Meta) (w : World) :
  type msg ≠ "commandNotification" →
  schneider_powertag_convert model msg opts meta w = (Returned None, w).
Proof.
  intros Hty. rewrite powertag_unfold.
  by rewrite bool_decide_eq_false_2.
Qed.

Lemma powertag_duplicate (model : Model) (msg : Msg GreenPower) (opts : KeyValue)
    (meta : Meta) (w : World) :
  type msg = "commandNotification" →
  publishDuplicateTransaction model ≠ Some true →
  already_processed msg w →
  schneider_powertag_convert model msg opts meta w = (Returned None, w).
Proof.
  intros Hty Hpub Hdup. rewrite powertag_unfold.
  rewrite bool_decide_eq_true_2 by done. cbn [negb].
  unfold bind, hasAlreadyProcessedMessage.
  rewrite (bool_decide_eq_false_2 (publishDuplicateTransaction model = Some true))
    by done.
  by rewrite bool_decide_eq_true_2.
Qed.

(** A notification that passes the duplicate check. *)
Lemma powertag_passes (model : Model) (msg : Msg GreenPower) (opts : KeyValue)
    (meta : Meta) (w : World) :
  type msg = "commandNotification" →
  publishDuplicateTransaction model = Some true ∨ ¬ already_processed msg w →
  schneider_powertag_convert model msg opts meta w
  = powertag_body msg (guard_world model msg w).
Proof.
  intros Hty Hpass. rewrite powertag_unfold.
  rewrite bool_decide_eq_true_2 by done. cbn [negb].
  unfold bind, hasAlreadyProcessedMessage, guard_world.
  case_bool_decide as Hpub; [done|].
  destruct Hpass as [Hpass|Hfresh]; [done|].
  by rewrite bool_decide_eq_false_2.
Qed.

Lemma powertag_fresh (model : Model) (msg : Msg GreenPower) (opts : KeyValue)
    (meta : Meta) (w : World) :
  type msg = "commandNotification" →
  ¬ already_processed msg w →
  schneider_powertag_convert model msg opts meta w
  = powertag_body msg (guard_world model msg w).
Proof. intros Hty Hfresh. apply powertag_passes; [done | by right]. Qed.

Lemma guard_world_channel (model : Model) (msg : Msg GreenPower) (w : World) :
  channel (guard_world model msg w) = channel w.
Proof. unfold guard_world. by case_bool_decide. Qed.

Lemma guard_world_sent (model : Model) (msg : Msg GreenPower) (w : World) :
  sent (guard_world model msg w) = sent w.
Proof. unfold guard_world. by case_bool_decide. Qed.

(** What a call leaves in the transaction store. *)
Lemma powertag_store (model : Model) (msg : Msg GreenPower) (opts : KeyValue)
    (meta : Meta) (w : World) :
  let w' := (schneider_powertag_convert model msg opts meta w).2 in
  transactionStore w' = transactionStore w
  ∨ (type msg = "commandNotification"
     ∧ publishDuplicateTransaction model ≠ Some true
     ∧ ¬ already_processed msg w
     ∧ transactionStore w'
       = <[frame_key msg :=
           take 5 (frameCounter (data msg)
                     :: default [] (transactionStore w !! frame_key msg))]>
           (transactionStore w)).
Proof.
  intros w'. unfold w'.
  destruct (decide (type msg = "commandNotification")) as [Hty|Hty].
  2: { left. by rewrite powertag_other_type. }
  destruct (decide (publishDuplicateTransaction model = Some true)) as [Hpub|Hpub].
  { left. rewrite powertag_passes by auto. rewrite powertag_body_store.
    unfold guard_world. by rewrite bool_decide_eq_true_2. }
  destruct (decide (already_processed msg w)) as [Hdup|Hfresh].
  { left. by rewrite powertag_duplicate. }
  right. split_and!; [done | done | done |].
  rewrite powertag_fresh by done. rewrite powertag_body_store.
  unfold guard_world. by rewrite bool_decide_eq_false_2.
Qed.


Lemma recent_processed (n : nat) (msg : Msg GreenPower) (w : World) :
  recent n msg w → already_processed msg w.
Proof. unfold recent, already_processed. apply subseteq_take. Qed.

Lemma recent_mono (n m : nat) (msg : Msg GreenPower) (w : World) :
  (n ≤ m)%nat → recent n msg w → recent m msg w.
Proof.
  unfold recent. intros Hle. rewrite !elem_of_take.
  intros (i & Hi & Hlt). exists i. split; [done|lia].
Qed.

(** A frame counter that was passed just now is the latest. *)
Lemma powertag_recent (model : Model) (msg : Msg GreenPower) (opts : KeyValue)
    (meta : Meta) (w : World) :
  type msg = "commandNotification" →
  publishDuplicateTransaction model ≠ Some true →
  ¬ already_processed msg w →
  recent 1 msg (schneider_powertag_convert model msg opts meta w).2.
Proof.
  intros Hty Hpub Hfresh. unfold recent.
  rewrite powertag_fresh, powertag_body_store by done.
  unfold guard_world. rewrite bool_decide_eq_false_2 by done.
  cbn [transactionStore]. rewrite lookup_insert_eq. cbn. apply list_elem_of_here.
Qed.

(** Every call moves a remembered frame counter back by at most one
    place. *)
Lemma powertag_ages (model : Model) (msg other : Msg GreenPower)
    (opts : KeyValue) (meta : Meta) (n : nat) (w : World) :
  (n < 5)%nat →
  recent n msg w →
  recent (S n) msg (schneider_powertag_convert model other opts meta w).2.
Proof.
  intros Hn Hrecent.
  destruct (powertag_store model other opts meta w) as [Hsame|(_ & _ & _ & Hnew)].
  - unfold recent. rewrite Hsame. by apply (recent_mono n); [lia|].
  - unfold recent in *. rewrite Hnew.
    destruct (decide (frame_key other = frame_key msg)) as [E|NE].
    + rewrite E, lookup_insert_eq. cbn. apply list_elem_of_further.
      rewrite take_take. by replace (n `min` 4)%nat with n by lia.
    + rewrite lookup_insert_ne by done.
      change (recent (S n) msg w). by apply (recent_mono n); [lia|].
Qed.

Lemma handle_all_ages (calls : list call) (msg : Msg GreenPower) (n : nat) (w : World) :
  (n + length calls ≤ 5)%nat →
  recent n msg w →
  recent (n + length calls) msg (handle_all calls w).
Proof.
  revert n w. induction calls as [|c calls IH]; intros n w Hlen Hrecent.
  - cbn. by rewrite Nat.add_0_r.
  - cbn [handle_all length] in *.
    replace (n + S (length calls))%nat with (S n + length calls)%nat by lia.
    apply IH; [lia|]. apply powertag_ages; [lia | done].
Qed.

Lemma same_frame_recent (n : nat) (m1 m2 : Msg GreenPower) (w : World) :
  same_frame m1 m2 → recent n m1 w → recent n m2 w.
Proof.
  intros (Ha & Hc & Hf). unfold recent, frame_key.
  by rewrite Ha, Hc, Hf.
Qed.

(** C6, amended: [fzLocal.schneider_powertag] returns nothing for a
    message whose type is not commandNotification, as
    commandCommissioningNotification is.  Unless
    [meta.publishDuplicateTransaction] is set, it returns nothing for a
    commandNotification whose frame counter is among those remembered for
    the device and command; and a frame counter that has passed the check
    is remembered while at most four calls follow. *)
Theorem schneider_powertag_skips (model : Model) (msg : Msg GreenPower)
    (opts : KeyValue) (meta : Meta) (w : World) :
  (type msg ≠ "commandNotification" →
     schneider_powertag_convert model msg opts meta w = (Returned None, w))
  ∧ (type msg = "commandNotification" →
     publishDuplicateTransaction model ≠ Some true →
     (already_processed msg w →
        schneider_powertag_convert model msg opts meta w = (Returned None, w))
     ∧ ∀ (first : call) (later : list call),
         type (call_msg first) = "commandNotification" →
         publishDuplicateTransaction (call_model first) ≠ Some true →
         same_frame (call_msg first) msg →
         ¬ already_processed (call_msg first) w →
         (length later ≤ 4)%nat →
         let w' := handle_all (first :: later) w in
         schneider_powertag_convert model msg opts meta w' = (Returned None, w')).
Proof.
  split.
  - apply powertag_other_type.
  - intros Hty Hpub. split; [by apply powertag_duplicate|].
    intros first later Hfirst Hpub1 Hsame Hfresh Hlen w'.
    apply powertag_duplicate; [done | done |].
    apply (recent_processed (1 + length later)).
    apply (same_frame_recent _ (call_msg first)); [done|].
    unfold w'. cbn [handle_all]. apply handle_all_ages; [lia|].
    by apply powertag_recent.
Qed.

Lemma schneider_powertag_skips_witness :
  schneider_powertag_convert powertag_model commissioning_notification ∅ sample_meta
      sample_world
    = (Returned None, sample_world)
  ∧ schneider_powertag_convert powertag_model metering_notification ∅ sample_meta
      (handle_all [mkCall powertag_model metering_notification ∅ sample_meta;
                   mkCall powertag_model electrical_notification ∅ sample_meta]
         sample_world)
    = (Returned None,
       handle_all [mkCall powertag_model metering_notification ∅ sample_meta;
                   mkCall powertag_model electrical_notification ∅ sample_meta]
         sample_world).
Proof.
  split.
  - destruct (schneider_powertag_skips powertag_model commissioning_notification ∅
                sample_meta sample_world) as [Hother _].
    apply Hother. discriminate.
  - destruct (schneider_powertag_skips powertag_model metering_notification ∅
                sample_meta sample_world) as [_ Hdup].
    destruct (Hdup eq_refl) as [_ Hlater]; [discriminate|].
    apply (Hlater (mkCall powertag_model metering_notification ∅ sample_meta)
             [mkCall powertag_model electrical_notification ∅ sample_meta]).
    + reflexivity.
    + discriminate.
    + split_and!; reflexivity.
    + by apply (bool_decide_eq_false_1 (already_processed _ _)).
    + cbn. lia.
Defined.

Lemma when_defined_lookup_ne (o : option Z) (key k : string) (f : Z → number)
    (ret : KeyValue) :
  key ≠ k → when_defined o key f ret !! k = ret !! k.
Proof. intros Hne. destruct o; [by apply lookup_insert_ne | done]. Qed.

Lemma when_defined_lookup_eq (v : Z) (key : string) (f : Z → number) (ret : KeyValue) :
  when_defined (Some v) key f ret !! key = Some (VNum (f v)).
Proof. apply lookup_insert_eq. Qed.

Lemma metering_energy (attr : gmap string Z) (ret : KeyValue) (v : Z) :
  attr !! "currentSummDelivered" = Some v →
  metering attr ret !! "energy"
  = Some (VNum (Num.div (of_Z v) (of_attr (attr !! "divisor")))).
Proof.
  intros Hv. unfold metering.
  rewrite !when_defined_lookup_ne by done.
  rewrite Hv. apply when_defined_lookup_eq.
Qed.

Lemma electrical_measurement_power (attr : gmap string Z) (ret : KeyValue) (p : Z) :
  attr !! "totalActivePower" = Some p →
  electrical_measurement attr ret !! "power"
  = Some (VNum (Num.div (Num.mul (of_Z p) (of_Z 1000))
                  (of_attr (attr !! "powerDivisor")))).
Proof.
  intros Hp. unfold electrical_measurement.
  rewrite !(when_defined_lookup_ne _ _ "power") by done.
  rewrite Hp. apply when_defined_lookup_eq.
Qed.

(** What the body returns for a command 0xa1 with a command frame. *)
Lemma powertag_body_attributes (msg : Msg GreenPower) (frame : CommandFrame) (w : World) :
  commandID (data msg) = 0xa1 →
  commandFrame (data msg) = Some frame →
  ∃ w',
    powertag_body msg w
    = (Returned (Some (if bool_decide (clusterID frame = 2820) then
                         electrical_measurement (attributes frame) ∅
                       else if bool_decide (clusterID frame = 1794) then
                         metering (attributes frame) ∅
                       else ∅)), w').
Proof.
  intros Hcmd Hframe. unfold powertag_body, bind.
  rewrite Hcmd, Hframe. rewrite bool_decide_eq_true_2 by done.
  unfold ret, send, getNetworkParameters.
  repeat case_match; simplify_eq/=; by eexists.
Qed.

(** C2: for a commandNotification with command 0xa1 that the converter
    processes (it passes the duplicate guard), a frame of cluster 1794 that
    carries [currentSummDelivered] yields
    [energy = currentSummDelivered / divisor] and a frame of cluster 2820
    that carries [totalActivePower] yields
    [power = (totalActivePower * 1000) / powerDivisor], the divisors being
    attributes of the same frame. *)
Theorem schneider_powertag_scales (model : Model) (msg : Msg GreenPower)
    (opts : KeyValue) (meta : Meta) (w : World) (frame : CommandFrame) :
  type msg = "commandNotification" →
  ¬ already_processed msg w →
  commandID (data msg) = 0xa1 →
  commandFrame (data msg) = Some frame →
  let attr := attributes frame in
  ∃ (ret : KeyValue) (w' : World),
    schneider_powertag_convert model msg opts meta w = (Returned (Some ret), w')
    ∧ (clusterID frame = 1794 →
       ∀ currentSummDelivered, attr !! "currentSummDelivered" = Some currentSummDelivered →
         ret !! "energy"
         = Some (VNum (Num.div (of_Z currentSummDelivered) (of_attr (attr !! "divisor")))))
    ∧ (clusterID frame = 2820 →
       ∀ totalActivePower, attr !! "totalActivePower" = Some totalActivePower →
         ret !! "power"
         = Some (VNum (Num.div (Num.mul (of_Z totalActivePower) (of_Z 1000))
                         (of_attr (attr !! "powerDivisor"))))).
Proof.
  intros Hty Hfresh Hcmd Hframe attr.
  rewrite powertag_fresh by done.
  edestruct (powertag_body_attributes msg frame) as [w' Hbody]; [done | done |].
  rewrite Hbody. eexists _, w'. split; [reflexivity|]. split.
  - intros Hcl v Hv. rewrite Hcl.
    rewrite bool_decide_eq_false_2 by done. rewrite bool_decide_eq_true_2 by done.
    by apply metering_energy.
  - intros Hcl p Hp. rewrite Hcl. rewrite bool_decide_eq_true_2 by done.
    by apply electrical_measurement_power.
Qed.

Lemma schneider_powertag_scales_witness :
  (∃ ret w',
     schneider_powertag_convert powertag_model metering_notification ∅ sample_meta
       sample_world = (Returned (Some ret), w')
     ∧ ret !! "energy" = Some (VNum (Fin (Qc_of_Z 123456 / Qc_of_Z 1000)%Qc)))
  ∧ (∃ ret w',
     schneider_powertag_convert powertag_model electrical_notification ∅ sample_meta
       sample_world = (Returned (Some ret), w')
     ∧ ret !! "power" = Some (VNum (Fin (Qc_of_Z 250000 / Qc_of_Z 10)%Qc))).
Proof.
  split.
  - destruct (schneider_powertag_scales powertag_model metering_notification ∅
                sample_meta sample_world
                (mkCommandFrame
                   (<["currentSummDelivered" := 123456]> {["divisor" := 1000]}) 1794))
      as (ret & w' & Hrun & Henergy & _);
      [reflexivity | by apply (bool_decide_eq_false_1 (already_processed _ _)) | reflexivity | reflexivity |].
    exists ret, w'. split; [exact Hrun|].
    rewrite (Henergy eq_refl 123456 eq_refl). reflexivity.
  - destruct (schneider_powertag_scales powertag_model electrical_notification ∅
                sample_meta sample_world
                (mkCommandFrame
                   (<["totalActivePower" := 250]> {["powerDivisor" := 10]}) 2820))
      as (ret & w' & Hrun & _ & Hpower);
      [reflexivity | by apply (bool_decide_eq_false_1 (already_processed _ _)) | reflexivity | reflexivity |].
    exists ret, w'. split; [exact Hrun|].
    rewrite (Hpower eq_refl 250 eq_refl). reflexivity.
Defined.

Lemma powertag_fresh_returns (model : Model) (msg : Msg GreenPower)
    (opts : KeyValue) (meta : Meta) (w : World) (frame : CommandFrame) :
  type msg = "commandNotification" →
  ¬ already_processed msg w →
  commandID (data msg) = 0xa1 →
  commandFrame (data msg) = Some frame →
  ∃ ret, (schneider_powertag_convert model msg opts meta w).1 = Returned (Some ret).
Proof.
  intros Hty Hfresh Hcmd Hframe. rewrite powertag_fresh by done.
  edestruct (powertag_body_attributes msg frame) as [w' ->]; [done | done |].
  by eexists.
Qed.

(** C6 as stated fails: the metering report was processed, and after five
    later reports of the tag it is processed again. *)
Lemma schneider_powertag_forgets :
  (∃ ret,
     (schneider_powertag_convert powertag_model metering_notification ∅ sample_meta
        sample_world).1 = Returned (Some ret))
  ∧ (∃ ret,
     (schneider_powertag_convert powertag_model metering_notification ∅ sample_meta
        world_after_six).1 = Returned (Some ret)).
Proof.
  split;
    (eapply powertag_fresh_returns;
     [reflexivity | by apply (bool_decide_eq_false_1 (already_processed _ _))
     | reflexivity | reflexivity]).
Qed.

(** ** Statelessness *)






(** * Further properties *)

Lemma add_endpoints_app (ids1 ids2 : list Z) (a : JsArray) :
  add_endpoints (ids1 ++ ids2) a = add_endpoints ids2 (add_endpoints ids1 a).
Proof. unfold add_endpoints. apply foldl_app. Qed.

Lemma add_endpoints_lookup (ids : list Z) (a : JsArray) (k : string) (v : Z) :
  well_named a →
  arr_props (add_endpoints ids a) !! k = Some v
  ↔ arr_props a !! k = Some v ∨ (k = epName v ∧ v ∈ ids).
Proof.
  revert a k v. induction ids as [|i ids IH]; intros a k v Hwn.
  - cbn. split; [by left|]. intros [H|[_ H]]; [done|]. by apply elem_of_nil in H.
  - rewrite add_endpoints_cons, IH.
    + cbn [arr_set arr_props]. rewrite elem_of_cons. split.
      * intros [H|[-> H]].
        -- apply lookup_insert_Some in H as [[<- <-]|[_ H]].
           ++ right. split; [reflexivity | left; reflexivity].
           ++ by left.
        -- right. split; [done|by right].
      * intros [H|[-> [->|H]]].
        -- left. destruct (decide (epName i = k)) as [<-|Hne].
           ++ rewrite lookup_insert_eq. f_equal. apply epName_inj.
              by apply Hwn.
           ++ by rewrite lookup_insert_ne.
        -- left. apply lookup_insert_eq.
        -- by right.
    + intros k' v'. cbn [arr_set arr_props]. intros H.
      apply lookup_insert_Some in H as [[<- <-]|[_ H]]; [done|by apply Hwn].
Qed.

Lemma ptvo_switch_endpoint_unfold (device : device_arg) (deviceConfig : string) :
  ptvoGetMetaOption device "device_config" (VStr "") = VStr deviceConfig →
  ptvo_switch_endpoint device
  = Returned (arr_set "action" 1
                (add_endpoints (endpoint_numbers device deviceConfig) arr_empty)).
Proof.
  intros Hcfg. unfold ptvo_switch_endpoint, endpoint_numbers. rewrite Hcfg.
  rewrite add_endpoints_app.
  replace (match device with
           | Real d => foldl _ arr_empty (endpoints d)
           | Dummy => arr_empty
           end)
    with (add_endpoints (ID <$> device_endpoints device) arr_empty).
  2:{ destruct device as [d|]; [symmetry; apply fold_endpoints | done]. }
  destruct (decide (deviceConfig = "")) as [-> | Hne].
  - rewrite !bool_decide_eq_true_2 by done.
    rewrite bool_decide_eq_true_2 by apply add_endpoints_length. done.
  - rewrite !bool_decide_eq_false_2 by congruence.
    by rewrite fold_config.
Qed.

Lemma elem_of_endpoint_numbers (device : device_arg) (deviceConfig : string) (v : Z) :
  v ∈ endpoint_numbers device deviceConfig
  ↔ (∃ ep, ep ∈ device_endpoints device ∧ ID ep = v)
    ∨ (deviceConfig = "" ∧ 1 ≤ v ≤ 8)
    ∨ (deviceConfig ≠ "" ∧ v ∈ config_endpoints (split_lines deviceConfig)).
Proof.
  unfold endpoint_numbers. rewrite elem_of_app, list_elem_of_fmap.
  case_bool_decide as Hcfg.
  - rewrite elem_of_seqZ. split.
    + intros [(ep & -> & Hep)|Hv]; [left; by exists ep | right; left; split; [done|lia]].
    + intros [(ep & Hep & <-)|[[_ Hv]|[Hne _]]];
        [left; by exists ep | right; lia | done].
  - split.
    + intros [(ep & -> & Hep)|Hv]; [left; by exists ep | right; by right].
    + intros [(ep & Hep & <-)|[[He _]|[_ Hv]]];
        [left; by exists ep | done | by right].
Qed.

Lemma ptvo_switch_endpoint_lookup (device : device_arg) (deviceConfig : string)
    (k : string) (v : Z) :
  arr_props (arr_set "action" 1
               (add_endpoints (endpoint_numbers device deviceConfig) arr_empty)) !! k
  = Some v
  ↔ (k = "action" ∧ v = 1)
    ∨ (k = "l" +:+ pretty v ∧ v ∈ endpoint_numbers device deviceConfig).
Proof.
  cbn [arr_set arr_props].
  destruct (decide (k = "action")) as [->|Hk].
  - rewrite lookup_insert_eq. split.
    + intros [= <-]. by left.
    + intros [[_ ->]|[H _]]; [done|]. by destruct (epName_not_action v).
  - rewrite lookup_insert_ne by done.
    rewrite add_endpoints_lookup by (intros ? ? H; cbn in H; by rewrite lookup_empty in H).
    cbn [arr_empty arr_props]. rewrite lookup_empty. split.
    + intros [H|H]; [done|by right].
    + intros [[H _]|H]; [done|by right].
Qed.

(** X1: when the stored configuration is a string, the [endpoint]
    function of [ptvo.switch] returns an array of length 0 whose keys are
    exactly [action] (with value 1) and [l<n>] (with value [n]) for the
    numbers [n] of the endpoints of the device, of the lines of a
    non-empty configuration that start with upper-case hexadecimal
    digits, and, when the configuration is empty, of 1 to 8: the
    fallback is taken even for a device that has endpoints. *)
Theorem ptvo_switch_endpoint_exact (device : device_arg) (deviceConfig : string) :
  ptvoGetMetaOption device "device_config" (VStr "") = VStr deviceConfig →
  ∃ endpointList,
    ptvo_switch_endpoint device = Returned endpointList
    ∧ arr_length endpointList = 0%N
    ∧ ∀ k v,
        arr_props endpointList !! k = Some v
        ↔ (k = "action" ∧ v = 1)
          ∨ (k = "l" +:+ pretty v
             ∧ ((∃ ep, ep ∈ device_endpoints device ∧ ID ep = v)
                ∨ (deviceConfig = "" ∧ 1 ≤ v ≤ 8)
                ∨ (deviceConfig ≠ ""
                   ∧ v ∈ config_endpoints (split_lines deviceConfig)))).
Proof.
  intros Hcfg. rewrite (ptvo_switch_endpoint_unfold _ _ Hcfg).
  eexists. split; [reflexivity|]. split.
  - cbn [arr_set arr_length]. change (array_index "action") with (@None N).
    apply add_endpoints_length.
  - intros k v. by rewrite ptvo_switch_endpoint_lookup, elem_of_endpoint_numbers.
Qed.

Lemma ptvo_switch_endpoint_exact_witness :
  ∃ endpointList,
    ptvo_switch_endpoint (Real ptvo_device) = Returned endpointList
    ∧ arr_props endpointList !! "l10" = Some 10
    ∧ arr_props endpointList !! "l2" = None.
Proof.
  destruct (ptvo_switch_endpoint_exact (Real ptvo_device)
              (String "1" (String "W" (String (ascii_of_nat 13)
                 (String (ascii_of_nat 10) "0AR,C")))))
    as (endpointList & Hrun & _ & Hexact); [reflexivity|].
  exists endpointList. split_and!.
  - exact Hrun.
  - apply Hexact. right. split; [reflexivity|]. right. right.
    split; [discriminate|]. vm_compute. repeat constructor.
  - destruct (arr_props endpointList !! "l2") as [v|] eqn:Hv; [|reflexivity].
    apply Hexact in Hv as [[Hk _]|[Hk Hin]]; [discriminate Hk|].
    apply (epName_inj 2 v) in Hk as <-.
    destruct Hin as [(ep & Hep & Hid)|[[Hempty _]|[_ Hin]]].
    + vm_compute in Hep.
      repeat (apply elem_of_cons in Hep as [->|Hep]; [discriminate Hid|]).
      by apply elem_of_nil in Hep.
    + discriminate Hempty.
    + vm_compute in Hin.
      repeat (apply elem_of_cons in Hin as [Hin|Hin]; [discriminate Hin|]).
      by apply elem_of_nil in Hin.
Defined.

(** X2: when the device holds a [device_config] that is not a string,
    the [endpoint] function of [ptvo.switch] throws instead of returning
    a map. *)
Theorem ptvo_switch_endpoint_throws (device : device_arg) (stored : value) :
  ptvoGetMetaOption device "device_config" (VStr "") = stored →
  (∀ s, stored ≠ VStr s) →
  ∃ e, ptvo_switch_endpoint device = Thrown e.
Proof.
  intros Hcfg Hns. unfold ptvo_switch_endpoint. rewrite Hcfg.
  rewrite bool_decide_eq_false_2 by apply Hns.
  destruct stored as [| | | |s|]; try by eexists.
  by destruct (Hns s).
Qed.

Lemma ptvo_switch_endpoint_throws_witness :
  ∃ e, ptvo_switch_endpoint (Real misconfigured_device) = Thrown e.
Proof.
  apply (ptvo_switch_endpoint_throws (Real misconfigured_device) (VNum (of_Z 5)));
    [reflexivity | discriminate].
Defined.

(** X3: [fzLocal.tirouter] always publishes [linkquality]; it publishes
    [transmit_power] for a non-zero attribute 4919, and for a missing or
    zero attribute it publishes [linkquality] alone. *)
Theorem tirouter_transmit_power (model : Model) (msg : Msg Attributes)
    (options : KeyValue) (meta : Meta) (w : World) :
  ∃ result,
    tirouter_convert model msg options meta w = (Returned (Some result), w)
    ∧ result !! "linkquality" = Some (VNum (of_Z (linkquality msg)))
    ∧ (∀ v, data msg !! "4919" = Some v → v ≠ 0 →
         result !! "transmit_power" = Some (VNum (of_Z v)))
    ∧ (data msg !! "4919" = None ∨ data msg !! "4919" = Some 0 →
         result = {["linkquality" := VNum (of_Z (linkquality msg))]}).
Proof.
  unfold tirouter_convert, ret. eexists. split; [reflexivity|]. split_and!.
  - destruct (data msg !! "4919") as [v|]; [case_bool_decide|];
      by simplify_map_eq.
  - intros v -> Hv. rewrite bool_decide_eq_false_2 by done. by simplify_map_eq.
  - intros [-> | ->]; done.
Qed.

Lemma tirouter_transmit_power_witness :
  (∃ result,
     tirouter_convert sample_model (tirouter_report 5) ∅ sample_meta sample_world
       = (Returned (Some result), sample_world)
     ∧ result !! "transmit_power" = Some (VNum (of_Z 5)))
  ∧ tirouter_convert sample_model (tirouter_report 0) ∅ sample_meta sample_world
    = (Returned (Some {["linkquality" := VNum (of_Z 96)]}), sample_world).
Proof.
  split.
  - destruct (tirouter_transmit_power sample_model (tirouter_report 5) ∅ sample_meta
                sample_world) as (result & Hrun & _ & Hpower & _).
    exists result. split; [exact Hrun|]. apply Hpower; [reflexivity | lia].
  - destruct (tirouter_transmit_power sample_model (tirouter_report 0) ∅ sample_meta
                sample_world) as (result & Hrun & _ & _ & Hzero).
    rewrite Hrun, Hzero; [reflexivity|]. right. reflexivity.
Defined.

Lemma land_bit11 (o : Z) :
  Z.land o (Z.shiftl 1 11) ≠ 0 ↔ Z.testbit o 11 = true.
Proof.
  assert (H : Z.land o (Z.shiftl 1 11) = if Z.testbit o 11 then 2048 else 0).
  { apply Z.bits_inj'. intros n Hn.
    rewrite Z.land_spec. change (Z.shiftl 1 11) with (2 ^ 11).
    rewrite Z.pow2_bits_eqb by lia.
    destruct (Z.eqb_spec 11 n) as [<-|Hne].
    - rewrite andb_true_r. destruct (Z.testbit o 11); reflexivity.
    - rewrite andb_false_r. destruct (Z.testbit o 11).
      + change 2048 with (2 ^ 11). rewrite Z.pow2_bits_eqb by lia.
        symmetry. by apply Z.eqb_neq.
      + by rewrite Z.bits_0. }
  rewrite H. destruct (Z.testbit o 11); split; done.
Qed.

(** The world after the body, when the body does not throw. *)
Lemma powertag_body_world (msg : Msg GreenPower) (w : World) :
  (commandID (data msg) = 0xa1 → is_Some (commandFrame (data msg))) →
  (powertag_body msg w).2
  = mkWorld (transactionStore w) (channel w)
      ((if Z.testbit (options (data msg)) 11 then [powertag_ack msg w] else [])
       ++ sent w).
Proof.
  intros Hframe. unfold powertag_body, bind.
  set (r := if bool_decide (commandID (data msg) = 161) then _ else _).
  assert (Hr : ∃ x, r w = (Returned x, w)).
  { unfold r, ret. case_bool_decide as Hcmd; [|by eexists].
    destruct (Hframe Hcmd) as [frame ->].
    destruct (bool_decide (clusterID frame = 2820)),
      (bool_decide (clusterID frame = 1794)); by eexists. }
  destruct Hr as [x ->].
  case_bool_decide as Hbit.
  - apply land_bit11 in Hbit. rewrite Hbit. reflexivity.
  - assert (Z.testbit (options (data msg)) 11 = false) as ->.
    { apply not_true_is_false. intros Ht. by apply land_bit11 in Ht. }
    by destruct w.
Qed.

Lemma powertag_passes_sent (model : Model) (msg : Msg GreenPower) (w : World) :
  (commandID (data msg) = 0xa1 → is_Some (commandFrame (data msg))) →
  sent (powertag_body msg (guard_world model msg w)).2
  = (if Z.testbit (options (data msg)) 11 then [powertag_ack msg w] else [])
    ++ sent w.
Proof.
  intros Hframe. rewrite powertag_body_world by done. cbn [sent].
  unfold powertag_ack. by rewrite guard_world_sent, guard_world_channel.
Qed.

(** X4: a notification that passes the duplicate check of
    [fzLocal.schneider_powertag], as a new one or under
    [meta.publishDuplicateTransaction], sends exactly one green-power
    response (to the tag's [srcID], on the channel minus 11, from endpoint
    242) when bit 11 of its options is set, and nothing otherwise; a
    message of another type, or a remembered one without that option,
    sends nothing. *)
Theorem schneider_powertag_acknowledges (model : Model) (msg : Msg GreenPower)
    (opts : KeyValue) (meta : Meta) (w : World) :
  let w' := (schneider_powertag_convert model msg opts meta w).2 in
  (type msg = "commandNotification" →
   ¬ already_processed msg w →
   (commandID (data msg) = 0xa1 → is_Some (commandFrame (data msg))) →
   sent w' = (if Z.testbit (options (data msg)) 11 then [powertag_ack msg w] else [])
             ++ sent w)
  ∧ (type msg ≠ "commandNotification"
     ∨ (publishDuplicateTransaction model ≠ Some true ∧ already_processed msg w) →
     sent w' = sent w)
  ∧ (type msg = "commandNotification" →
     publishDuplicateTransaction model = Some true →
     (commandID (data msg) = 0xa1 → is_Some (commandFrame (data msg))) →
     sent w' = (if Z.testbit (options (data msg)) 11 then [powertag_ack msg w] else [])
               ++ sent w).
Proof.
  intros w'. split_and!.
  - intros Hty Hfresh Hframe. unfold w'.
    rewrite powertag_fresh by done. by apply powertag_passes_sent.
  - intros [Hty|[Hpub Hdup]]; unfold w'.
    + by rewrite powertag_other_type.
    + destruct (decide (type msg = "commandNotification")).
      * by rewrite powertag_duplicate.
      * by rewrite powertag_other_type.
  - intros Hty Hpub Hframe. unfold w'.
    rewrite powertag_passes by auto. by apply powertag_passes_sent.
Qed.

Lemma schneider_powertag_acknowledges_witness :
  sent (schneider_powertag_convert powertag_model electrical_notification ∅ sample_meta
          sample_world).2
    = [ReqGreenPowerResponse 242 0 0x1a2b 0 0x9f1c2d3e 0xfe 0xfe [0] 242]
  ∧ sent (schneider_powertag_convert powertag_model metering_notification ∅ sample_meta
            sample_world).2 = []
  ∧ sent (schneider_powertag_convert powertag_model commissioning_notification ∅
            sample_meta sample_world).2 = [].
Proof.
  split_and!.
  - destruct (schneider_powertag_acknowledges powertag_model electrical_notification ∅
                sample_meta sample_world) as (Hack & _ & _).
    rewrite Hack; [reflexivity | reflexivity
                  | by apply (bool_decide_eq_false_1 (already_processed _ _))
                  | by eexists].
  - destruct (schneider_powertag_acknowledges powertag_model metering_notification ∅
                sample_meta sample_world) as (Hack & _ & _).
    rewrite Hack; [reflexivity | reflexivity
                  | by apply (bool_decide_eq_false_1 (already_processed _ _))
                  | by eexists].
  - destruct (schneider_powertag_acknowledges powertag_model commissioning_notification
                ∅ sample_meta sample_world) as (_ & Hskip & _).
    rewrite Hskip; [reflexivity|]. left. discriminate.
Defined.

Lemma when_defined_is_Some (o : option Z) (key k : string) (f : Z → number)
    (ret : KeyValue) :
  is_Some (when_defined o key f ret !! k) ↔ (k = key ∧ is_Some o) ∨ is_Some (ret !! k).
Proof.
  destruct o as [v|]; cbn [when_defined].
  - destruct (decide (key = k)) as [->|Hne].
    + rewrite lookup_insert_eq. split; [left|]; eauto.
    + rewrite lookup_insert_ne by done. split; [by right|].
      intros [[-> _]|H]; done.
  - split; [by right|]. intros [[_ []]|H]; done.
Qed.

Lemma metering_is_Some (attr : gmap string Z) (k : string) :
  is_Some (metering attr ∅ !! k)
  ↔ ∃ a, is_Some (attr !! a) ∧ (a, k) ∈ metering_properties.
Proof.
  unfold metering, metering_properties. rewrite !when_defined_is_Some.
  rewrite lookup_empty. split.
  - intros H. repeat destruct H as [[-> H]|H];
      try (eexists; split; [exact H|]; set_solver).
    by destruct H.
  - intros (a & Ha & Hin). set_unfold in Hin.
    repeat destruct Hin as [[= -> ->]|Hin]; first [tauto | done].
Qed.

Lemma electrical_measurement_is_Some (attr : gmap string Z) (k : string) :
  is_Some (electrical_measurement attr ∅ !! k)
  ↔ ∃ a, is_Some (attr !! a) ∧ (a, k) ∈ electrical_properties.
Proof.
  unfold electrical_measurement, electrical_properties.
  rewrite !when_defined_is_Some. rewrite lookup_empty. split.
  - intros H. repeat destruct H as [[-> H]|H];
      try (eexists; split; [exact H|]; set_solver).
    by destruct H.
  - intros (a & Ha & Hin). set_unfold in Hin.
    repeat destruct Hin as [[= -> ->]|Hin]; first [tauto | done].
Qed.

(** X5: for a processed notification, [fzLocal.schneider_powertag]
    returns the empty object when the command is not 0xa1, and for 0xa1 it
    publishes exactly the properties whose attribute is present in a
    frame of cluster 1794 (metering) or 2820 (electrical measurement);
    a frame of another cluster publishes nothing. *)
Theorem schneider_powertag_publishes (model : Model) (msg : Msg GreenPower)
    (opts : KeyValue) (meta : Meta) (w : World) :
  type msg = "commandNotification" →
  ¬ already_processed msg w →
  ∃ w',
    (commandID (data msg) ≠ 0xa1 →
       schneider_powertag_convert model msg opts meta w = (Returned (Some ∅), w'))
    ∧ (∀ frame,
         commandID (data msg) = 0xa1 →
         commandFrame (data msg) = Some frame →
         ∃ ret,
           schneider_powertag_convert model msg opts meta w = (Returned (Some ret), w')
           ∧ ∀ property, is_Some (ret !! property) ↔ published frame property).
Proof.
  intros Hty Hfresh. rewrite powertag_fresh by done.
  set (w1 := guard_world _ _ _).
  exists (powertag_body msg w1).2. split.
  - intros Hcmd.
    assert (H : (powertag_body msg w1).1 = Returned (Some ∅)).
    { unfold powertag_body, bind. rewrite bool_decide_eq_false_2 by done.
      unfold ret, send, getNetworkParameters.
      by destruct (bool_decide (Z.land _ _ ≠ 0)). }
    rewrite <- H. by destruct (powertag_body msg w1).
  - intros frame Hcmd Hframe.
    destruct (powertag_body_attributes msg frame w1 Hcmd Hframe) as [w' Hbody].
    rewrite Hbody. eexists. split; [reflexivity|].
    intros property. unfold published.
    case_bool_decide as H1; [|case_bool_decide as H2].
    + rewrite electrical_measurement_is_Some. split.
      * intros (a & Ha & Hin). exists a. split; [done|]. by right.
      * intros (a & Ha & [[Hc _]|[_ Hin]]); [congruence|by exists a].
    + rewrite metering_is_Some. split.
      * intros (a & Ha & Hin). exists a. split; [done|]. by left.
      * intros (a & Ha & [[_ Hin]|[Hc _]]); [by exists a|congruence].
    + rewrite lookup_empty. split; [by intros []|].
      intros (a & Ha & [[Hc _]|[Hc _]]); congruence.
Qed.

Lemma schneider_powertag_publishes_witness :
  (∃ w', schneider_powertag_convert powertag_model status_notification ∅ sample_meta
           sample_world = (Returned (Some ∅), w'))
  ∧ (∃ ret w',
       schneider_powertag_convert powertag_model metering_notification ∅ sample_meta
         sample_world = (Returned (Some ret), w')
       ∧ is_Some (ret !! "energy") ∧ ret !! "power" = None).
Proof.
  split.
  - destruct (schneider_powertag_publishes powertag_model status_notification ∅
                sample_meta sample_world) as (w' & Hempty & _);
      [reflexivity | by apply (bool_decide_eq_false_1 (already_processed _ _)) |].
    exists w'. apply Hempty. discriminate.
  - destruct (schneider_powertag_publishes powertag_model metering_notification ∅
                sample_meta sample_world) as (w' & _ & Hframe);
      [reflexivity | by apply (bool_decide_eq_false_1 (already_processed _ _)) |].
    destruct (Hframe _ eq_refl eq_refl) as (ret & Hrun & Hkeys).
    exists ret, w'. split_and!.
    + exact Hrun.
    + apply Hkeys. exists "currentSummDelivered". split; [by eexists|].
      left. split; [reflexivity|]. apply list_elem_of_here.
    + apply eq_None_not_Some. rewrite Hkeys.
      intros (a & _ & [[_ Hin]|[Hc _]]); [|discriminate Hc].
      set_unfold in Hin. repeat destruct Hin as [[= _ ?]|Hin]; done.
Defined.

Lemma div_of_Z_zero (v : Z) :
  Num.div (of_Z v) (of_Z 0)
  = match v ?= 0 with Eq => NaN | Gt => PInf | Lt => NInf end.
Proof. unfold Num.div, of_Z. by rewrite !sgn_of_Z. Qed.

(** X6: [fzLocal.schneider_powertag] does not guard the divisor of a
    metering frame: without a [divisor] the energy is NaN, with divisor 0
    it is NaN or an infinity by the sign of [currentSummDelivered], and
    with any other divisor it is a finite number. *)
Theorem schneider_powertag_divisor (model : Model) (msg : Msg GreenPower)
    (opts : KeyValue) (meta : Meta) (w : World) (frame : CommandFrame) (delivered : Z) :
  type msg = "commandNotification" →
  ¬ already_processed msg w →
  commandID (data msg) = 0xa1 →
  commandFrame (data msg) = Some frame →
  clusterID frame = 1794 →
  attributes frame !! "currentSummDelivered" = Some delivered →
  ∃ (ret : KeyValue) (w' : World),
    schneider_powertag_convert model msg opts meta w = (Returned (Some ret), w')
    ∧ (attributes frame !! "divisor" = None → ret !! "energy" = Some (VNum NaN))
    ∧ (attributes frame !! "divisor" = Some 0 →
       ret !! "energy"
       = Some (VNum (match delivered ?= 0 with Eq => NaN | Gt => PInf | Lt => NInf end)))
    ∧ (∀ divisor, attributes frame !! "divisor" = Some divisor → divisor ≠ 0 →
       ∃ q, ret !! "energy" = Some (VNum (Fin q))).
Proof.
  intros Hty Hfresh Hcmd Hframe Hcl Hv.
  rewrite powertag_fresh by done.
  edestruct (powertag_body_attributes msg frame) as [w' Hbody]; [done | done |].
  rewrite Hbody, Hcl.
  rewrite bool_decide_eq_false_2 by done. rewrite bool_decide_eq_true_2 by done.
  eexists _, w'. split; [reflexivity|].
  rewrite (metering_energy _ _ _ Hv). split_and!.
  - by intros ->.
  - intros ->. cbn [of_attr]. by rewrite div_of_Z_zero.
  - intros d -> Hd. cbn [of_attr]. rewrite div_of_Z by done. by eexists.
Qed.

Lemma schneider_powertag_divisor_witness :
  ∃ ret w',
    schneider_powertag_convert powertag_model undivided_notification ∅ sample_meta
      sample_world = (Returned (Some ret), w')
    ∧ ret !! "energy" = Some (VNum NaN).
Proof.
  destruct (schneider_powertag_divisor powertag_model undivided_notification ∅
              sample_meta sample_world
              (mkCommandFrame {["currentSummDelivered" := 123456]} 1794) 123456)
    as (ret & w' & Hrun & Hnone & _);
    [reflexivity | by apply (bool_decide_eq_false_1 (already_processed _ _))
    | reflexivity | reflexivity | reflexivity | reflexivity |].
  exists ret, w'. split; [exact Hrun|]. apply Hnone. reflexivity.
Defined.

Lemma sample_getKey_finds : getKey_finds sample_getKey.
Proof.
  unfold getKey_finds, sample_getKey. split.
  - intros object v k Hk.
    destruct (head _) as [[k' x]|] eqn:Hhead; [|done].
    injection Hk as ->. apply head_Some_elem_of in Hhead.
    apply list_elem_of_filter in Hhead as [Hv Hin]. cbn in Hv.
    exists x. split; [done|]. by apply elem_of_map_to_list.
  - intros object x k Hk.
    destruct (filter _ _) as [|kv l] eqn:Hf; [|by eexists].
    assert (Hin : (k, x) ∈ filter (λ kv : string * Z, Some kv.2 = Some x)
                    (map_to_list object)).
    { apply list_elem_of_filter. split; [done|]. by apply elem_of_map_to_list. }
    rewrite Hf in Hin. by apply elem_of_nil in Hin.
Qed.

Lemma switchTypesList_lookup (k : string) (c : Z) :
  switchTypesList !! k = Some c
  ↔ (k = "switch" ∧ c = 0) ∨ (k = "multi-click" ∧ c = 2).
Proof.
  unfold switchTypesList. split.
  - intros H. apply lookup_insert_Some in H as [[<- <-]|[_ H]]; [by left|].
    apply lookup_insert_Some in H as [[<- <-]|[_ H]]; [by right|].
    by rewrite lookup_empty in H.
  - intros [[-> ->]|[-> ->]]; reflexivity.
Qed.

(** X7: given a [getKey] that returns a key holding the value when there
    is one, [fzLocal.multi_zig_sw_switch_config] publishes one property,
    [switch_type_<channel>], whose value is the name in [switchTypesList]
    of the reported [switchType] (0 is [switch], 2 is [multi-click]) and
    [undefined] for a code outside the list. *)
Theorem multi_zig_sw_switch_config_decodes
    (getKey : gmap string Z → option Z → option string)
    (model : Model) (msg : Msg Attributes) (options : KeyValue) (meta : Meta)
    (w : World) (eps : gmap string Z) :
  getKey_finds getKey →
  endpoint_map model (device msg) w = (Returned eps, w) →
  ∃ name,
    multi_zig_sw_switch_config_convert getKey model msg options meta w
    = (Returned (Some {["switch_type_"
                         +:+ template (getKey eps (Some (ID (endpoint msg)))) := name]}),
       w)
    ∧ (∀ k c, switchTypesList !! k = Some c →
         data msg !! "switchType" = Some c → name = VStr k)
    ∧ ((∀ k, switchTypesList !! k ≠ data msg !! "switchType") → name = VUndefined).
Proof.
  intros [Hsound Hcomplete] Heps.
  unfold multi_zig_sw_switch_config_convert, bind. rewrite Heps. unfold ret.
  eexists. split; [reflexivity|]. split.
  - intros k c Hk ->.
    destruct (Hcomplete _ _ _ Hk) as [k' Hk']. rewrite Hk'. f_equal.
    apply Hsound in Hk' as (x & [= <-] & Hx).
    apply switchTypesList_lookup in Hk, Hx.
    destruct Hk as [[-> ->]|[-> ->]], Hx as [[-> ?]|[-> ?]]; done.
  - intros Hnone.
    destruct (getKey switchTypesList _) as [k|] eqn:Hk; [|done].
    apply Hsound in Hk as (x & Hx & Hk). destruct (Hnone k). congruence.
Qed.

Lemma multi_zig_sw_switch_config_decodes_witness :
  multi_zig_sw_switch_config_convert sample_getKey multi_zig_sw_model
      (switch_config_report 2) ∅ sample_meta sample_world
    = (Returned (Some {["switch_type_button_1" := VStr "multi-click"]}), sample_world)
  ∧ multi_zig_sw_switch_config_convert sample_getKey multi_zig_sw_model
      (switch_config_report 1) ∅ sample_meta sample_world
    = (Returned (Some {["switch_type_button_1" := VUndefined]}), sample_world).
Proof.
  split.
  - destruct (multi_zig_sw_switch_config_decodes sample_getKey multi_zig_sw_model
                (switch_config_report 2) ∅ sample_meta sample_world
                (<["button_1" := 2]> (<["button_2" := 3]> (<["button_3" := 4]>
                   (<["button_4" := 5]> ∅)))))
      as (name & Hrun & Hname & _); [apply sample_getKey_finds | reflexivity |].
    rewrite Hrun, (Hname "multi-click" 2); reflexivity.
  - destruct (multi_zig_sw_switch_config_decodes sample_getKey multi_zig_sw_model
                (switch_config_report 1) ∅ sample_meta sample_world
                (<["button_1" := 2]> (<["button_2" := 3]> (<["button_3" := 4]>
                   (<["button_4" := 5]> ∅)))))
      as (name & Hrun & _ & Hnone); [apply sample_getKey_finds | reflexivity |].
    rewrite Hrun, Hnone; [reflexivity|].
    intros k Hk. apply switchTypesList_lookup in Hk as [[_ Hc]|[_ Hc]]; discriminate Hc.
Defined.

Lemma multi_zig_sw_buttons_lookup (k : string) (i : Z) :
  multi_zig_sw_buttons !! k = Some i
  ↔ 2 ≤ i ≤ 5 ∧ k = "button_" +:+ pretty (i - 1).
Proof.
  unfold multi_zig_sw_buttons. split.
  - intros H.
    repeat (apply lookup_insert_Some in H as [[<- <-]|[_ H]]; [by split; [lia|]|]).
    by rewrite lookup_empty in H.
  - intros [Hi ->].
    assert (i = 2 ∨ i = 3 ∨ i = 4 ∨ i = 5) as [->|[->|[->| ->]]] by lia;
      reflexivity.
Qed.

Lemma getKey_button (getKey : gmap string Z → option Z → option string) (i : Z) :
  getKey_finds getKey →
  getKey multi_zig_sw_buttons (Some i)
  = if bool_decide (2 ≤ i ≤ 5) then Some ("button_" +:+ pretty (i - 1)) else None.
Proof.
  intros [Hsound Hcomplete]. case_bool_decide as Hi.
  - destruct (Hcomplete multi_zig_sw_buttons i ("button_" +:+ pretty (i - 1)))
      as [k Hk]; [by apply multi_zig_sw_buttons_lookup|].
    rewrite Hk. apply Hsound in Hk as (x & [= <-] & Hk).
    by apply multi_zig_sw_buttons_lookup in Hk as [_ ->].
  - destruct (getKey multi_zig_sw_buttons (Some i)) as [k|] eqn:Hk; [|done].
    apply Hsound in Hk as (x & [= <-] & Hk).
    by apply multi_zig_sw_buttons_lookup in Hk as [? _].
Qed.

(** X8: for the [MULTI-ZIG-SW] record, a report from endpoint 2 to 5 with
    a [presentValue] from 0 to 4 makes [fzLocal.multi_zig_sw_switch_buttons]
    publish the action [button_<endpoint - 1>_<name>], the name being
    release, single, double, triple or hold in that order, each of which
    the record exposes. *)
Theorem multi_zig_sw_switch_buttons_action
    (getKey : gmap string Z → option Z → option string)
    (msg : Msg Attributes) (options : KeyValue) (meta : Meta) (w : World) (v : Z) :
  getKey_finds getKey →
  2 ≤ ID (endpoint msg) ≤ 5 →
  data msg !! "presentValue" = Some v →
  0 ≤ v ≤ 4 →
  ∃ name,
    multi_zig_sw_switch_buttons_convert getKey multi_zig_sw_model msg options meta w
    = (Returned (Some {["action" :=
         VStr ("button_" +:+ pretty (ID (endpoint msg) - 1) +:+ "_" +:+ name)]}), w)
    ∧ nth_error ["release"; "single"; "double"; "triple"; "hold"] (Z.to_nat v) = Some name
    ∧ name ∈ multi_zig_sw_exposed_actions.
Proof.
  intros Hfinds Hid Hv Hrange.
  unfold multi_zig_sw_switch_buttons_convert, bind, endpoint_map, lift, ret.
  cbn [multi_zig_sw_model model_endpoint multi_zig_sw_endpoint].
  change (<["button_1" := 2]> _) with multi_zig_sw_buttons.
  rewrite getKey_button by done. rewrite bool_decide_eq_true_2 by done.
  rewrite Hv. cbn [mbind option_bind template].
  assert (v = 0 ∨ v = 1 ∨ v = 2 ∨ v = 3 ∨ v = 4) as [->|[->|[->|[->| ->]]]] by lia;
    (eexists; split; [reflexivity|]; split; [reflexivity|]);
    unfold multi_zig_sw_exposed_actions; repeat constructor.
Qed.

Lemma multi_zig_sw_switch_buttons_action_witness :
  multi_zig_sw_switch_buttons_convert sample_getKey multi_zig_sw_model
      (button_report_from 4 2) ∅ sample_meta sample_world
    = (Returned (Some {["action" := VStr "button_3_double"]}), sample_world).
Proof.
  destruct (multi_zig_sw_switch_buttons_action sample_getKey (button_report_from 4 2)
              ∅ sample_meta sample_world 2)
    as (name & Hrun & Hname & _);
    [apply sample_getKey_finds | cbn; lia | reflexivity | lia |].
  injection Hname as <-. exact Hrun.
Defined.

(** X9: for the [MULTI-ZIG-SW] record, [fzLocal.multi_zig_sw_switch_config]
    publishes under [switch_type_button_<n>] for endpoint [n + 1] from 2
    to 5 and under [switch_type_undefined] for every other endpoint; this
    is never one of the keys [switch_type_1] to [switch_type_4] of
    [tzLocal.multi_zig_sw_switch_type]. *)
Theorem multi_zig_sw_switch_config_key
    (getKey : gmap string Z → option Z → option string)
    (msg : Msg Attributes) (options : KeyValue) (meta : Meta) (w : World) :
  getKey_finds getKey →
  ∃ key name,
    multi_zig_sw_switch_config_convert getKey multi_zig_sw_model msg options meta w
    = (Returned (Some {[key := name]}), w)
    ∧ key = (if bool_decide (2 ≤ ID (endpoint msg) ≤ 5)
             then "switch_type_button_" +:+ pretty (ID (endpoint msg) - 1)
             else "switch_type_undefined")
    ∧ key ∉ multi_zig_sw_switch_type_key.
Proof.
  intros Hfinds.
  unfold multi_zig_sw_switch_config_convert, bind, endpoint_map, lift, ret.
  cbn [multi_zig_sw_model model_endpoint multi_zig_sw_endpoint].
  change (<["button_1" := 2]> _) with multi_zig_sw_buttons.
  rewrite getKey_button by done.
  eexists _, _. split; [reflexivity|].
  case_bool_decide as Hid; cbn [template].
  - split; [reflexivity|]. unfold multi_zig_sw_switch_type_key.
    assert (ID (endpoint msg) = 2 ∨ ID (endpoint msg) = 3 ∨ ID (endpoint msg) = 4
            ∨ ID (endpoint msg) = 5) as [->|[->|[->| ->]]] by lia;
      vm_compute; intros H; repeat (inversion H as [|? ? ? H']; clear H; rename H' into H).
  - split; [reflexivity|]. unfold multi_zig_sw_switch_type_key.
    vm_compute; intros H; repeat (inversion H as [|? ? ? H']; clear H; rename H' into H).
Qed.

Lemma multi_zig_sw_switch_config_key_witness :
  ∃ name,
    multi_zig_sw_switch_config_convert sample_getKey multi_zig_sw_model
      (switch_config_report 0) ∅ sample_meta sample_world
    = (Returned (Some {["switch_type_button_1" := name]}), sample_world).
Proof.
  destruct (multi_zig_sw_switch_config_key sample_getKey (switch_config_report 0) ∅
              sample_meta sample_world) as (key & name & Hrun & Hkey & _);
    [apply sample_getKey_finds|].
  exists name. rewrite Hrun, Hkey. reflexivity.
Defined.

Lemma truthy_insert (o : Flags) (k k' : string) :
  truthy (<[k := true]> o) k' = bool_decide (k = k') || truthy o k'.
Proof.
  unfold truthy. destruct (decide (k = k')) as [->|Hne].
  - rewrite lookup_insert_eq.
    rewrite (bool_decide_eq_true_2 (Some true = Some true)) by done.
    by rewrite (bool_decide_eq_true_2 (k' = k')).
  - rewrite lookup_insert_ne by done. by rewrite (bool_decide_eq_false_2 (k = k')).
Qed.

Lemma push_if_when (c : bool) (x : Expose) (l : list Expose) :
  push_if c x l = l ++ when c x.
Proof. destruct c; [done|]. cbn. by rewrite app_nil_r. Qed.

Lemma push_if_guard (c g : bool) (x : Expose) (l : list Expose) :
  (if c then push_if (negb g) x l else l) = l ++ when (c && negb g) x.
Proof. destruct c, g; cbn; by rewrite ?app_nil_r. Qed.

Lemma push3_guard (c g : bool) (x y z : Expose) (l : list Expose) :
  (if c then if negb g then push z (push y (push x l)) else l else l)
  = l ++ (if c && negb g then [x; y; z] else []).
Proof. destruct c, g; cbn; unfold push; by rewrite <- ?app_assoc, ?app_nil_r. Qed.

Lemma truthy_insert_eq (o : Flags) (k : string) : truthy (<[k := true]> o) k = true.
Proof. rewrite truthy_insert. by rewrite bool_decide_eq_true_2. Qed.

Lemma truthy_insert_ne (o : Flags) (k k' : string) :
  k ≠ k' → truthy (<[k := true]> o) k' = truthy o k'.
Proof. intros. rewrite truthy_insert. by rewrite bool_decide_eq_false_2. Qed.

Ltac simpl_truthy :=
  repeat first
    [ rewrite truthy_insert_eq
    | rewrite truthy_insert_ne by discriminate ].

Lemma if_same {A} (c : bool) (x : A) : (if c then x else x) = x.
Proof. by destruct c. Qed.

Lemma ptvoAddStandardExposes_exposes (ep : Endpoint) (expose : list Expose)
    (options flags : Flags) :
  (ptvoAddStandardExposes ep expose options flags).1.1
  = expose ++ standard_exposes ep options.
Proof.
  unfold ptvoAddStandardExposes, standard_exposes, is_light.
  generalize ("l" +:+ pretty (ID ep)); intros epName.
  destruct (supportsInputCluster ep "lightingColorCtrl");
    [|destruct (supportsInputCluster ep "genLevelCtrl")];
    cbn [negb andb orb]; simpl_truthy; cbn [orb andb negb];
    rewrite ?andb_false_r.
  all: destruct (supportsInputCluster ep "genAnalogInput" ||
                 supportsOutputCluster ep "genAnalogInput"); cbn [andb negb].
  all: try destruct (truthy options "exposed_analog"); cbn [andb negb orb].
  all: simpl_truthy; cbn [orb fst snd].
  all: rewrite push3_guard, !push_if_guard, !push_if_when.
  all: cbn [negb]; rewrite ?andb_false_r, ?andb_true_r.
  all: unfold push, when; rewrite ?app_nil_r, ?if_same, <- ?app_assoc; cbn [app]; reflexivity.
Qed.

Lemma ptvoAddStandardExposes_flags (ep : Endpoint) (expose : list Expose)
    (options flags : Flags) :
  (ptvoAddStandardExposes ep expose options flags).2
  = (if supportsInputCluster ep "genMultistateInput"
        || supportsOutputCluster ep "genMultistateInput"
     then <["expose_action" := true]> else id)
      ((if supportsInputCluster ep "genPowerCfg"
        then <["expose_battery" := true]> else id) flags).
Proof.
  unfold ptvoAddStandardExposes.
  destruct (supportsInputCluster ep "lightingColorCtrl");
    [|destruct (supportsInputCluster ep "genLevelCtrl")].
  all: destruct (supportsInputCluster ep "genAnalogInput" ||
                 supportsOutputCluster ep "genAnalogInput"); cbn [andb negb].
  all: try match goal with |- context [negb (truthy ?o ?k)] => destruct (truthy o k) end.
  all: cbn [negb snd].
  all: destruct (supportsInputCluster ep "genPowerCfg"),
         (supportsInputCluster ep "genMultistateInput" ||
          supportsOutputCluster ep "genMultistateInput"); reflexivity.
Qed.

Lemma ptvoAddStandardExposes_options (ep : Endpoint) (expose : list Expose)
    (options flags : Flags) :
  (ptvoAddStandardExposes ep expose options flags).1.2
  = let options :=
      if supportsInputCluster ep "lightingColorCtrl" then
        <["exposed_colorcontrol" := true]>
          (<["exposed_analog" := true]> (<["exposed_onoff" := true]> options))
      else if supportsInputCluster ep "genLevelCtrl" then
        <["exposed_levelcontrol" := true]>
          (<["exposed_analog" := true]> (<["exposed_onoff" := true]> options))
      else options in
    if (supportsInputCluster ep "genAnalogInput"
        || supportsOutputCluster ep "genAnalogInput")
       && negb (truthy options "exposed_analog")
    then <["exposed_analog" := true]> options else options.
Proof.
  unfold ptvoAddStandardExposes.
  destruct (supportsInputCluster ep "lightingColorCtrl");
    [|destruct (supportsInputCluster ep "genLevelCtrl")].
  all: destruct (supportsInputCluster ep "genAnalogInput" ||
                 supportsOutputCluster ep "genAnalogInput"); cbn [andb negb].
  all: try match goal with |- context [negb (truthy ?o ?k)] => destruct (truthy o k) end.
  all: reflexivity.
Qed.

Lemma elem_of_when (c : bool) (x y : Expose) : y ∈ when c x ↔ c = true ∧ y = x.
Proof.
  destruct c; cbn.
  - rewrite list_elem_of_singleton. tauto.
  - rewrite elem_of_nil. split; [tauto|]. by intros [? _].
Qed.

Lemma elem_of_if3 (c : bool) (x1 x2 x3 y : Expose) :
  y ∈ (if c then [x1; x2; x3] else []) ↔ c = true ∧ (y = x1 ∨ y = x2 ∨ y = x3).
Proof.
  destruct c.
  - rewrite !elem_of_cons, elem_of_nil. tauto.
  - rewrite elem_of_nil. split; [tauto|]. by intros [? _].
Qed.

Ltac standard_membership :=
  unfold standard_exposes, at_endpoint, text_at;
  rewrite !elem_of_app, !elem_of_when, elem_of_if3;
  rewrite ?andb_true_iff, ?negb_true_iff.

(** X10: [ptvoAddStandardExposes] only appends to the list.  It adds the
    colour light exactly for a [lightingColorCtrl] endpoint, the dimmable
    light exactly for a [genLevelCtrl] endpoint without colour control,
    the switch exactly for a [genOnOff] endpoint that is no light and has
    no on/off expose yet, and the text expose exactly for a
    [genAnalogInput] endpoint that is no light and has no analog expose
    yet. *)
Theorem ptvoAddStandardExposes_light (ep : Endpoint) (expose : list Expose)
    (options flags : Flags) :
  ∃ added,
    (ptvoAddStandardExposes ep expose options flags).1.1 = expose ++ added
    ∧ (at_endpoint "light_brightness_colorxy" ep ∈ added
       ↔ supportsInputCluster ep "lightingColorCtrl" = true)
    ∧ (at_endpoint "light_brightness" ep ∈ added
       ↔ supportsInputCluster ep "lightingColorCtrl" = false
         ∧ supportsInputCluster ep "genLevelCtrl" = true)
    ∧ (at_endpoint "switch" ep ∈ added
       ↔ supportsInputCluster ep "genOnOff" = true
         ∧ is_light ep = false
         ∧ truthy options "exposed_onoff" = false)
    ∧ (text_at ep ∈ added
       ↔ (supportsInputCluster ep "genAnalogInput"
          || supportsOutputCluster ep "genAnalogInput") = true
         ∧ is_light ep = false
         ∧ truthy options "exposed_analog" = false).
Proof.
  exists (standard_exposes ep options).
  split; [apply ptvoAddStandardExposes_exposes|].
  split_and!; standard_membership; (split;
    [ intros H; repeat destruct H as [H|H]; destruct H as [Hc He];
      first [discriminate He | by destruct He as [He|[He|He]] | tauto]
    | intros Hc; tauto ]).
Qed.

Lemma truthy_insert_true (o : Flags) (k k' : string) :
  truthy (<[k := true]> o) k' = true ↔ k' = k ∨ truthy o k' = true.
Proof.
  rewrite truthy_insert, orb_true_iff, bool_decide_eq_true.
  split; (intros [H|H]; [left; congruence | by right]).
Qed.

(** X11: [ptvoAddStandardExposes] never clears an option of the endpoint;
    a light marks on/off and analog as exposed; and the device flags after
    the call are those before it, with [expose_battery] for a
    [genPowerCfg] endpoint and [expose_action] for a [genMultistateInput]
    endpoint. *)
Theorem ptvoAddStandardExposes_sets_flags (ep : Endpoint) (expose : list Expose)
    (options flags : Flags) :
  let options' := (ptvoAddStandardExposes ep expose options flags).1.2 in
  let flags' := (ptvoAddStandardExposes ep expose options flags).2 in
  (∀ k, truthy options k = true → truthy options' k = true)
  ∧ (is_light ep = true →
     truthy options' "exposed_onoff" = true ∧ truthy options' "exposed_analog" = true)
  ∧ (∀ k, truthy flags' k = true
          ↔ truthy flags k = true
            ∨ (k = "expose_battery" ∧ supportsInputCluster ep "genPowerCfg" = true)
            ∨ (k = "expose_action"
               ∧ (supportsInputCluster ep "genMultistateInput"
                  || supportsOutputCluster ep "genMultistateInput") = true)).
Proof.
  intros options' flags'. unfold options', flags'.
  rewrite ptvoAddStandardExposes_options, ptvoAddStandardExposes_flags.
  unfold is_light. split_and!.
  - intros k Hk. cbv zeta.
    destruct (supportsInputCluster ep "lightingColorCtrl");
      [|destruct (supportsInputCluster ep "genLevelCtrl")];
      repeat case_match; rewrite ?truthy_insert_true; tauto.
  - cbv zeta. intros Hlight.
    destruct (supportsInputCluster ep "lightingColorCtrl");
      [|destruct (supportsInputCluster ep "genLevelCtrl"); [|done]];
      repeat case_match; rewrite ?truthy_insert_true; split; auto 10.
  - intros k.
    destruct (supportsInputCluster ep "genPowerCfg"),
      (supportsInputCluster ep "genMultistateInput" ||
       supportsOutputCluster ep "genMultistateInput");
      unfold id; rewrite ?truthy_insert_true; intuition congruence.
Qed.

Lemma ptvoAddStandardExposes_sets_flags_witness :
  truthy (ptvoAddStandardExposes light_endpoint [] ∅ ∅).1.2 "exposed_onoff" = true
  ∧ truthy (ptvoAddStandardExposes light_endpoint [] ∅ ∅).1.2 "exposed_analog" = true.
Proof.
  destruct (ptvoAddStandardExposes_sets_flags light_endpoint [] ∅ ∅) as (_ & Hlight & _).
  apply Hlight. reflexivity.
Defined.

Lemma parse_hex_go_nonneg (s : string) (acc : Z) : 0 ≤ acc → 0 ≤ parse_hex_go acc s.
Proof.
  revert acc. induction s as [|c s IH]; intros acc Hacc; cbn [parse_hex_go]; [done|].
  destruct (hex_digit c) as [d|]; [|done]. apply IH. lia.
Qed.

Lemma dec_digit_bound (c : ascii) (d : N) : dec_digit c = Some d → (d ≤ 9)%N.
Proof.
  unfold dec_digit. case_match eqn:H; [|done]. intros [= <-].
  apply andb_true_iff in H as [_ H]. apply N.leb_le in H. lia.
Qed.

Lemma dec_run_bound (s : string) (acc : option Z) (n : Z) :
  0 ≤ default 0 acc →
  dec_run acc s = Some n →
  0 ≤ n < (default 0 acc + 1) * 10 ^ Z.of_nat (String.length s).
Proof.
  revert acc. induction s as [|c s IH]; intros acc Hacc; cbn [dec_run String.length].
  - intros ->. cbn [default] in *. unfold id in *.
    change (Z.of_nat 0) with 0. rewrite Z.pow_0_r. lia.
  - destruct (dec_digit c) as [d|] eqn:Hd.
    + intros Hn. apply IH in Hn; cbn [default] in *; unfold id in *; [|lia].
      apply dec_digit_bound in Hd.
      rewrite Nat2Z.inj_succ, Z.pow_succ_r by lia. nia.
    + intros ->. cbn [default] in *. unfold id in *. split; [done|].
      assert (0 < 10 ^ Z.of_nat (S (String.length s))) by (apply Z.pow_pos_nonneg; lia).
      nia.
Qed.

Lemma skip_spaces_length (s : string) :
  (String.length (skip_spaces s) ≤ String.length s)%nat.
Proof.
  induction s as [|c s IH]; cbn [skip_spaces String.length]; [done|].
  destruct (is_space c); cbn [String.length]; lia.
Qed.

Lemma parseInt10_bound (s : string) (n : Z) :
  parseInt10 s = Some n → n < 10 ^ Z.of_nat (String.length s).
Proof.
  unfold parseInt10. intros Hn.
  pose proof (skip_spaces_length s) as Hlen.
  assert (Hmono : ∀ k : nat, (k ≤ String.length s)%nat →
                    10 ^ Z.of_nat k ≤ 10 ^ Z.of_nat (String.length s)).
  { intros k Hk. apply Z.pow_le_mono_r; lia. }
  destruct (skip_spaces s) as [|c s'] eqn:Hs.
  - apply dec_run_bound in Hn; [|done]. cbn in Hn. unfold id in Hn.
    specialize (Hmono 0%nat ltac:(lia)). change (Z.of_nat 0) with 0 in Hmono. lia.
  - cbn [String.length] in Hlen.
    assert (Hgen : ∀ t m, (String.length t ≤ String.length s)%nat →
                     dec_run None t = Some m → m < 10 ^ Z.of_nat (String.length s)).
    { intros t m Ht Hm. apply dec_run_bound in Hm; [|done]. cbn [default] in Hm.
      unfold id in Hm. specialize (Hmono _ Ht). lia. }
    destruct (decide (c = "-"%char)) as [->|Hminus];
      [|destruct (decide (c = "+"%char)) as [->|Hplus]].
    + destruct (dec_run None s') as [m|] eqn:Hm; [|done]. injection Hn as <-.
      apply dec_run_bound in Hm; [|done].
      assert (0 < 10 ^ Z.of_nat (String.length s)) by (apply Z.pow_pos_nonneg; lia).
      lia.
    + apply (Hgen s'); [lia | done].
    + apply (Hgen (String c s')); [cbn; lia|].
      destruct c as [[] [] [] [] [] [] [] []]; try done.
Qed.

Lemma str_take_length (k : nat) (s : string) : (String.length (str_take k s) ≤ k)%nat.
Proof.
  revert s. induction k as [|k IH]; intros [|c s]; cbn; try lia.
  specialize (IH s). lia.
Qed.

Lemma entry_id_bound (entry : string) (n : Z) : entry_id entry = Some n → n < 100.
Proof.
  unfold entry_id, substr. intros Hn. apply parseInt10_bound in Hn.
  pose proof (str_take_length 2 (str_drop 0 entry)) as Hlen.
  assert (10 ^ Z.of_nat (String.length (str_take 2 (str_drop 0 entry))) ≤ 10 ^ 2)
    by (apply Z.pow_le_mono_r; lia).
  lia.
Qed.

Lemma entry_id_two_digits (epId : Z) (rest : string) :
  0 ≤ epId < 100 → entry_id (two_digits epId +:+ rest) = Some epId.
Proof.
  intros Hid.
  assert (Hin : epId ∈ seqZ 0 100) by (apply elem_of_seqZ; lia).
  clear Hid. vm_compute in Hin.
  repeat (apply elem_of_cons in Hin as [->|Hin]; [reflexivity|]).
  by apply elem_of_nil in Hin.
Qed.

Lemma normalise_line_entry_id (line : string) (epId : Z) (entry : string) :
  normalise_line line = Some (epId, entry) →
  0 ≤ epId ∧ (entry_id entry = Some epId ↔ epId < 100).
Proof.
  unfold normalise_line.
  destruct (match_hex line) as [digits|]; [|done]. intros [= <- <-].
  assert (Hpos : 0 ≤ parseInt16 digits) by (by apply parse_hex_go_nonneg).
  split; [done|]. split.
  - apply entry_id_bound.
  - intros Hlt. apply (entry_id_two_digits (parseInt16 digits)). lia.
Qed.

Lemma endpoint_entry_id (ep : Endpoint) :
  entry_id (endpoint_entry ep) = Some (ID ep) ↔ 0 ≤ ID ep < 100.
Proof.
  unfold endpoint_entry. split.
  - intros Hid. split; [|by apply entry_id_bound in Hid].
    destruct (ID ep) as [|p|p] eqn:Hp; [done | done |].
    rewrite bool_decide_eq_true_2 in Hid by lia. discriminate Hid.
  - intros Hid.
    pose proof (entry_id_two_digits (ID ep) "" Hid) as H.
    unfold two_digits in H. by rewrite append_empty_r in H.
Qed.

(** X12: the [exposes] function of [ptvo.switch] writes the number of an
    endpoint at the head of its entry and reads it back from the first two
    characters only: the number read is the number written exactly when
    it is below 100 (and, for an endpoint of the device, not negative). *)
Theorem ptvo_switch_exposes_entry_id :
  (∀ line epId entry,
     normalise_line line = Some (epId, entry) →
     0 ≤ epId ∧ (entry_id entry = Some epId ↔ epId < 100))
  ∧ (∀ ep, entry_id (endpoint_entry ep) = Some (ID ep) ↔ 0 ≤ ID ep < 100).
Proof. split; [apply normalise_line_entry_id | apply endpoint_entry_id]. Qed.

Lemma ptvo_switch_exposes_entry_id_witness :
  normalise_line "64*" = Some (100, "100*") ∧ entry_id "100*" ≠ Some 100.
Proof.
  split; [reflexivity|].
  destruct ptvo_switch_exposes_entry_id as [Hline _].
  destruct (Hline "64*" 100 "100*") as [_ Hid]; [reflexivity|].
  intros Heq. apply Hid in Heq. lia.
Defined.

Lemma closing_exposes_app (flags : Flags) (expose : list Expose) :
  closing_exposes flags expose
  = expose ++ when (truthy flags "expose_action") action_expose
           ++ when (truthy flags "expose_battery") battery_expose.
Proof.
  unfold closing_exposes, push, when, action_expose, battery_expose.
  destruct (truthy flags "expose_action"), (truthy flags "expose_battery");
    cbn [app]; by rewrite <- ?app_assoc, ?app_nil_r.
Qed.

(** The loop over the endpoints of a device without a configuration. *)
Lemma fold_standard_exposes (eps : list Endpoint) (expose : list Expose) (flags : Flags) :
  foldl (fun '(expose, flags) endpoint =>
           let exposeEpOptions : Flags := ∅ in
           let '(expose, _, flags) :=
             ptvoAddStandardExposes endpoint expose exposeEpOptions flags in
           (expose, flags))
        (expose, flags) eps
  = (expose ++ flat_map (fun ep => standard_exposes ep ∅) eps,
     foldl (fun flags ep => (ptvoAddStandardExposes ep [] ∅ flags).2) flags eps).
Proof.
  revert expose flags. induction eps as [|ep eps IH]; intros expose flags.
  - cbn. by rewrite app_nil_r.
  - cbn [foldl flat_map].
    pose proof (ptvoAddStandardExposes_exposes ep expose ∅ flags) as He.
    pose proof (ptvoAddStandardExposes_flags ep expose ∅ flags) as Hf.
    pose proof (ptvoAddStandardExposes_flags ep [] ∅ flags) as Hf'.
    destruct (ptvoAddStandardExposes ep expose ∅ flags) as [[e o] f].
    cbn [fst snd] in He, Hf. subst e f. rewrite IH, Hf', <- app_assoc. done.
Qed.

Lemma fold_flags_truthy (eps : list Endpoint) (flags : Flags) (k : string) :
  truthy (foldl (fun flags ep => (ptvoAddStandardExposes ep [] ∅ flags).2) flags eps) k
  = truthy flags k
    || bool_decide (k = "expose_battery")
       && existsb (fun ep => supportsInputCluster ep "genPowerCfg") eps
    || bool_decide (k = "expose_action") && existsb has_multistate eps.
Proof.
  revert flags. induction eps as [|ep eps IH]; intros flags.
  - cbn. by rewrite !andb_false_r, !orb_false_r.
  - cbn [foldl existsb]. rewrite IH, ptvoAddStandardExposes_flags. unfold has_multistate.
    destruct (supportsInputCluster ep "genPowerCfg"),
      (supportsInputCluster ep "genMultistateInput" ||
       supportsOutputCluster ep "genMultistateInput");
      unfold id; rewrite ?truthy_insert;
      rewrite ?(bool_decide_ext ("expose_action" = k) (k = "expose_action")) by done;
      rewrite ?(bool_decide_ext ("expose_battery" = k) (k = "expose_battery")) by done;
      destruct (bool_decide (k = "expose_battery")), (bool_decide (k = "expose_action")),
        (truthy flags k); cbn; by rewrite ?orb_true_r.
Qed.

(** X13: for a device without a stored configuration, the [exposes]
    function of [ptvo.switch] returns the standard exposes of its
    endpoints, in order, then the action expose when some endpoint has
    [genMultistateInput], then the battery expose when some endpoint has
    [genPowerCfg]. *)
Theorem ptvo_switch_exposes_unconfigured (toUpperCase : string → string)
    (d : Device) (options : KeyValue) :
  ptvoGetMetaOption (Real d) "device_config" (VStr "") = VStr "" →
  ptvo_switch_exposes toUpperCase (Real d) options
  = Returned
      (flat_map (fun ep => standard_exposes ep ∅) (endpoints d)
       ++ when (existsb has_multistate (endpoints d)) action_expose
       ++ when (existsb (fun ep => supportsInputCluster ep "genPowerCfg") (endpoints d))
            battery_expose).
Proof.
  intros Hcfg. unfold ptvo_switch_exposes. rewrite Hcfg.
  rewrite bool_decide_eq_true_2 by done. cbn [device_flags].
  rewrite fold_standard_exposes, closing_exposes_app, !fold_flags_truthy.
  cbn [app]. unfold truthy. rewrite lookup_empty.
  rewrite (bool_decide_eq_false_2 (None = Some true)) by done.
  rewrite (bool_decide_eq_true_2 ("expose_action" = "expose_action")) by done.
  rewrite (bool_decide_eq_true_2 ("expose_battery" = "expose_battery")) by done.
  rewrite (bool_decide_eq_false_2 ("expose_action" = "expose_battery")) by done.
  rewrite (bool_decide_eq_false_2 ("expose_battery" = "expose_action")) by done.
  cbn [andb orb]. by rewrite orb_false_r.
Qed.

Lemma ptvo_switch_exposes_unconfigured_witness :
  ptvo_switch_exposes sample_toUpperCase (Real sample_device) ∅
  = Returned [battery_expose].
Proof.
  apply (ptvo_switch_exposes_unconfigured sample_toUpperCase sample_device ∅).
  reflexivity.
Defined.

Lemma preset_not_closing (name : string) (mods : list modifier) :
  name ≠ "battery" → is_closing (mkExpose (e_preset name) mods) = false.
Proof.
  intros Hname. apply bool_decide_eq_false_2.
  intros [H|H]; [discriminate H|]. injection H as H _. done.
Qed.

Lemma when_no_closing (c : bool) (x : Expose) :
  is_closing x = false → no_closing (when c x).
Proof. intros Hx. destruct c; by repeat constructor. Qed.

Lemma standard_exposes_no_closing (ep : Endpoint) (options : Flags) :
  no_closing (standard_exposes ep options).
Proof.
  unfold standard_exposes, no_closing.
  repeat (apply Forall_app; split);
    try (apply when_no_closing; first [by apply preset_not_closing | done]).
  case_match; repeat constructor; by apply preset_not_closing.
Qed.

Lemma state_preset_not_closing (valueDescription : string) (mods : list modifier) :
  is_closing (mkExpose (state_preset valueDescription) mods) = false.
Proof.
  unfold state_preset. repeat case_bool_decide; by apply preset_not_closing.
Qed.

Lemma analog_expose_not_closing (toUpperCase : string → string)
    (epName : string) (a : access) (valueId valueDescription valueUnit : string)
    (o : Flags) :
  is_closing (analog_expose toUpperCase epName a valueId valueDescription valueUnit o).1
  = false.
Proof.
  unfold analog_expose.
  repeat case_match; cbn [fst]; apply bool_decide_eq_false_2;
    intros [Hx|Hx]; discriminate Hx.
Qed.

Lemma expose_entry_grows (toUpperCase : string → string) (d : Device)
    (epConfig : string) (next : option string) (st : list Expose * DeviceOptions) :
  ∃ added,
    (expose_entry toUpperCase d epConfig next st).1 = st.1 ++ added ∧ no_closing added.
Proof.
  destruct st as [expose dopts]. unfold expose_entry. cbn [fst].
  set (epId := entry_id epConfig).
  set (epName := "l" +:+ num_to_string epId).
  set (items := if bool_decide (str_drop 1 (str_drop 2 epConfig) = "") then []
                else split_comma (str_drop 1 (str_drop 2 epConfig))).
  set (o := default ∅ (ep_options dopts !! epName)).
  set (a := if _ || _ then ea_STATE_SET else ea_STATE).
  assert (Hfirst : ∃ added1 o1,
    (if bool_decide (default "" (items !! 0%nat) = "*") then
       (push (mkExpose (e_preset "switch") [withEndpoint epName]) expose,
        <["exposed_onoff" := true]> o)
     else if bool_decide (default "" (items !! 0%nat) = "#") then
       (push (mkExpose (state_preset (default "" (items !! 1%nat)))
                [withProperty "state"; withEndpoint epName]) expose,
        <["exposed_onoff" := true]> o)
     else if bool_decide (0 < length items)%nat then
       let '(x, exposeEpOptions) :=
         analog_expose toUpperCase epName a (default "" (items !! 0%nat))
           (default "" (items !! 1%nat)) (default "" (items !! 2%nat)) o in
       (push x expose, exposeEpOptions)
     else (expose, o)) = (expose ++ added1, o1) ∧ no_closing added1).
  { repeat case_bool_decide.
    - eexists _, _. split; [reflexivity|].
      apply Forall_singleton. by apply preset_not_closing.
    - eexists _, _. split; [reflexivity|].
      apply Forall_singleton. apply state_preset_not_closing.
    - pose proof (analog_expose_not_closing toUpperCase epName a
                    (default "" (items !! 0%nat)) (default "" (items !! 1%nat))
                    (default "" (items !! 2%nat)) o) as Hx.
      destruct (analog_expose _ _ _ _ _ _ _) as [x o1]. cbn [fst] in Hx.
      eexists _, _. split; [reflexivity|]. by apply Forall_singleton.
    - exists [], o. split; [by rewrite app_nil_r | constructor]. }
  destruct Hfirst as (added1 & o1 & -> & Hadded1).
  case_bool_decide.
  - by exists added1.
  - destruct (getEndpoint d epId) as [endpoint|]; [|by exists added1].
    pose proof (ptvoAddStandardExposes_exposes endpoint (expose ++ added1) o1
                  (device_flags dopts)) as He.
    destruct (ptvoAddStandardExposes _ _ _ _) as [[e o2] f]. cbn [fst] in *. subst e.
    exists (added1 ++ standard_exposes endpoint o1). split; [by rewrite app_assoc|].
    apply Forall_app. split; [done | apply standard_exposes_no_closing].
Qed.

Lemma expose_entries_grows (toUpperCase : string → string) (d : Device)
    (entries : list string) (st : list Expose * DeviceOptions) :
  ∃ added,
    (expose_entries toUpperCase d entries st).1 = st.1 ++ added ∧ no_closing added.
Proof.
  revert st. induction entries as [|entry entries IH]; intros st.
  - exists []. split; [by rewrite app_nil_r | constructor].
  - cbn [expose_entries].
    destruct (expose_entry_grows toUpperCase d entry (head entries) st)
      as (added1 & H1 & Hn1).
    destruct (IH (expose_entry toUpperCase d entry (head entries) st))
      as (added2 & H2 & Hn2).
    exists (added1 ++ added2). rewrite H2, H1, app_assoc. split; [done|].
    by apply Forall_app.
Qed.

(** X14: whenever the [exposes] function of [ptvo.switch] returns, the
    action expose and the battery expose occur at most once each, at the
    end of the list and in this order: nothing before them is one of the
    two. *)
Theorem ptvo_switch_exposes_closing (toUpperCase : string → string)
    (device : device_arg) (options : KeyValue) (exposes : list Expose) :
  ptvo_switch_exposes toUpperCase device options = Returned exposes →
  ∃ body a b,
    exposes = body ++ when a action_expose ++ when b battery_expose
    ∧ no_closing body.
Proof.
  unfold ptvo_switch_exposes. destruct device as [d|].
  - case_bool_decide as Hcfg.
    + rewrite fold_standard_exposes, closing_exposes_app. intros [= <-].
      eexists _, _, _. split; [reflexivity|]. cbn [app].
      induction (endpoints d) as [|ep eps IH]; [constructor|].
      cbn [flat_map]. apply Forall_app. split; [apply standard_exposes_no_closing | done].
    + destruct (ptvoGetMetaOption (Real d) "device_config" (VStr "")) as [| | | |cfg|];
        try done.
      destruct (normalise_lines (split_lines cfg)) as [all sorted].
      destruct (expose_entries_grows toUpperCase d
                  (sort_strings (add_unlisted (endpoints d) all sorted))
                  ([], mkDeviceOptions ∅ ∅)) as (added & Hadded & Hnc).
      destruct (expose_entries _ _ _ _) as [e o]. cbn [fst app] in Hadded. subst e.
      rewrite closing_exposes_app. intros [= <-]. by eexists _, _, _.
  - rewrite closing_exposes_app. cbn [device_flags].
    set (body := foldl _ [] (seqZ 1 8)). intros Hrun.
    exists body, (truthy ∅ "expose_action"), (truthy ∅ "expose_battery").
    split; [congruence|].
    unfold no_closing, body. vm_compute. repeat constructor.
Qed.

Lemma ptvo_switch_exposes_closing_witness :
  ∃ exposes body a b,
    ptvo_switch_exposes sample_toUpperCase (Real ptvo_device) ∅ = Returned exposes
    ∧ exposes = body ++ when a action_expose ++ when b battery_expose
    ∧ no_closing body.
Proof.
  destruct (ptvo_switch_exposes sample_toUpperCase (Real ptvo_device) ∅)
    as [exposes|e] eqn:Hrun; [|vm_compute in Hrun; discriminate Hrun].
  destruct (ptvo_switch_exposes_closing _ _ _ _ Hrun) as (body & a & b & Hshape & Hbody).
  by exists exposes, body, a, b.
Defined.

Lemma names_in_impl (P Q : string → Prop) (l : list Expose) :
  (∀ n, P n → Q n) → names_in P l → names_in Q l.
Proof.
  intros HPQ Hl. eapply Forall_impl; [exact Hl|].
  intros x Hx. eapply Forall_impl; [exact Hx | exact HPQ].
Qed.

Lemma endpoint_names_elem (x : Expose) (n : string) :
  withEndpoint n ∈ modifiers x → n ∈ endpoint_names x.
Proof.
  intros Hin. apply list_elem_of_omap. by exists (withEndpoint n).
Qed.

Lemma standard_exposes_names (ep : Endpoint) (options : Flags) :
  names_in (fun n => n = "l" +:+ pretty (ID ep)) (standard_exposes ep options).
Proof.
  unfold standard_exposes, names_in.
  repeat (apply Forall_app; split);
    try (match goal with |- Forall _ (when ?c _) => destruct c end;
         repeat constructor).
  case_match; repeat constructor.
Qed.

Lemma analog_expose_names (toUpperCase : string → string)
    (epName : string) (a : access) (valueId valueDescription valueUnit : string)
    (o : Flags) :
  endpoint_names
    (analog_expose toUpperCase epName a valueId valueDescription valueUnit o).1 = [].
Proof. unfold analog_expose. by repeat case_match. Qed.

Lemma getEndpoint_Some (d : Device) (epId : option Z) (ep : Endpoint) :
  getEndpoint d epId = Some ep → epId = Some (ID ep) ∧ ep ∈ endpoints d.
Proof.
  unfold getEndpoint. destruct epId as [i|]; [|done]. cbn. intros Hhead.
  assert (Hin : ep ∈ filter (fun ep => ID ep = i) (endpoints d)).
  { destruct (filter _ _) as [|e l]; [done|]. injection Hhead as ->. by left. }
  apply list_elem_of_filter in Hin as [<- Hin]. done.
Qed.

Lemma expose_entry_names (toUpperCase : string → string) (d : Device)
    (epConfig : string) (next : option string) (st : list Expose * DeviceOptions) :
  ∃ added,
    (expose_entry toUpperCase d epConfig next st).1 = st.1 ++ added
    ∧ names_in (fun n => n = "l" +:+ num_to_string (entry_id epConfig)) added.
Proof.
  destruct st as [expose dopts]. unfold expose_entry. cbn [fst].
  set (epId := entry_id epConfig).
  set (epName := "l" +:+ num_to_string epId).
  set (items := if bool_decide (str_drop 1 (str_drop 2 epConfig) = "") then []
                else split_comma (str_drop 1 (str_drop 2 epConfig))).
  set (o := default ∅ (ep_options dopts !! epName)).
  set (a := if _ || _ then ea_STATE_SET else ea_STATE).
  assert (Hfirst : ∃ added1 o1,
    (if bool_decide (default "" (items !! 0%nat) = "*") then
       (push (mkExpose (e_preset "switch") [withEndpoint epName]) expose,
        <["exposed_onoff" := true]> o)
     else if bool_decide (default "" (items !! 0%nat) = "#") then
       (push (mkExpose (state_preset (default "" (items !! 1%nat)))
                [withProperty "state"; withEndpoint epName]) expose,
        <["exposed_onoff" := true]> o)
     else if bool_decide (0 < length items)%nat then
       let '(x, exposeEpOptions) :=
         analog_expose toUpperCase epName a (default "" (items !! 0%nat))
           (default "" (items !! 1%nat)) (default "" (items !! 2%nat)) o in
       (push x expose, exposeEpOptions)
     else (expose, o)) = (expose ++ added1, o1)
    ∧ names_in (fun n => n = epName) added1).
  { repeat case_bool_decide.
    - eexists _, _. split; [reflexivity|]. repeat constructor.
    - eexists _, _. split; [reflexivity|]. repeat constructor.
    - pose proof (analog_expose_names toUpperCase epName a
                    (default "" (items !! 0%nat)) (default "" (items !! 1%nat))
                    (default "" (items !! 2%nat)) o) as Hx.
      destruct (analog_expose _ _ _ _ _ _ _) as [x o1]. cbn [fst] in Hx.
      eexists _, _. split; [reflexivity|]. apply Forall_singleton.
      rewrite Hx. constructor.
    - exists [], o. split; [by rewrite app_nil_r | constructor]. }
  destruct Hfirst as (added1 & o1 & -> & Hadded1).
  case_bool_decide.
  - by exists added1.
  - destruct (getEndpoint d epId) as [endpoint|] eqn:Hep; [|by exists added1].
    apply getEndpoint_Some in Hep as [Hid _].
    pose proof (ptvoAddStandardExposes_exposes endpoint (expose ++ added1) o1
                  (device_flags dopts)) as He.
    destruct (ptvoAddStandardExposes _ _ _ _) as [[e o2] f]. cbn [fst] in *. subst e.
    exists (added1 ++ standard_exposes endpoint o1). split; [by rewrite app_assoc|].
    apply Forall_app. split; [done|].
    unfold epName. rewrite Hid. apply standard_exposes_names.
Qed.

Lemma expose_entries_names (toUpperCase : string → string) (d : Device)
    (entries : list string) (st : list Expose * DeviceOptions) :
  ∃ added,
    (expose_entries toUpperCase d entries st).1 = st.1 ++ added
    ∧ names_in (fun n => ∃ entry, entry ∈ entries
                                  ∧ n = "l" +:+ num_to_string (entry_id entry)) added.
Proof.
  revert st. induction entries as [|entry entries IH]; intros st.
  - exists []. split; [by rewrite app_nil_r | constructor].
  - cbn [expose_entries].
    destruct (expose_entry_names toUpperCase d entry (head entries) st)
      as (added1 & H1 & Hn1).
    destruct (IH (expose_entry toUpperCase d entry (head entries) st))
      as (added2 & H2 & Hn2).
    exists (added1 ++ added2). rewrite H2, H1, app_assoc. split; [done|].
    apply Forall_app. split.
    + eapply names_in_impl; [|exact Hn1]. intros n ->. exists entry. split; [by left|done].
    + eapply names_in_impl; [|exact Hn2]. intros n (e & He & ->).
      exists e. split; [by right|done].
Qed.

(** The entries of the first loop come from the lines that start with
    digits. *)
Lemma normalise_lines_entries (toUpperCase : string → string) (lines : list string)
    (entry : string) :
  entry ∈ (normalise_lines lines).2 →
  ∃ line epId, line ∈ lines ∧ normalise_line line = Some (epId, entry).
Proof.
  unfold normalise_lines. induction lines as [|line lines IH] using rev_ind.
  - cbn. by intros H%elem_of_nil.
  - rewrite foldl_app. cbn [foldl].
    destruct (foldl _ _ lines) as [all sorted]. cbn [snd] in IH.
    destruct (normalise_line line) as [[epId epConfig]|] eqn:Hline; cbn [snd].
    + unfold push. intros [Hin| ->%list_elem_of_singleton]%elem_of_app.
      * destruct (IH Hin) as (l & i & Hl & Hn). exists l, i.
        split; [apply elem_of_app; by left | done].
      * exists line, epId. split; [apply elem_of_app; right; by left | done].
    + intros Hin. destruct (IH Hin) as (l & i & Hl & Hn). exists l, i.
      split; [apply elem_of_app; by left | done].
Qed.

Lemma add_unlisted_entries (eps : list Endpoint) (all : gset Z) (sorted : list string)
    (entry : string) :
  entry ∈ add_unlisted eps all sorted →
  entry ∈ sorted ∨ ∃ ep, ep ∈ eps ∧ entry = endpoint_entry ep.
Proof.
  unfold add_unlisted. induction eps as [|ep eps IH] using rev_ind.
  - cbn. by left.
  - rewrite foldl_app. cbn [foldl]. case_bool_decide.
    + intros [H'|(e & He & ->)]%IH; [by left|].
      right. exists e. split; [apply elem_of_app; by left | done].
    + unfold push. intros [[H'|(e & He & ->)]%IH| ->%list_elem_of_singleton]%elem_of_app.
      * by left.
      * right. exists e. split; [apply elem_of_app; by left | done].
      * right. exists ep. split; [apply elem_of_app; right; by left | done].
Qed.

Lemma normalise_line_config (line : string) (epId : Z) (entry : string)
    (lines : list string) :
  line ∈ lines → normalise_line line = Some (epId, entry) →
  epId ∈ config_endpoints lines.
Proof.
  intros Hin Hline. unfold config_endpoints. apply list_elem_of_omap.
  exists line. split; [done|]. unfold normalise_line in Hline.
  destruct (match_hex line) as [digits|]; [|done]. by injection Hline as <- _.
Qed.

Lemma closing_names (a b : bool) :
  names_in (fun _ => False) (when a action_expose ++ when b battery_expose).
Proof. destruct a, b; repeat constructor. Qed.

Lemma names_in_elem (P : string → Prop) (l : list Expose) (x : Expose) (n : string) :
  names_in P l → x ∈ l → withEndpoint n ∈ modifiers x → P n.
Proof.
  intros Hl Hx Hn. unfold names_in in Hl. rewrite Forall_forall in Hl.
  specialize (Hl x Hx). rewrite Forall_forall in Hl.
  apply Hl. by apply endpoint_names_elem.
Qed.

(** The loop of the fallback code. *)
Lemma fallback_names (P : string → Prop) (ids : list Z) (expose : list Expose) :
  names_in P expose → (∀ i, i ∈ ids → P ("l" +:+ pretty i)) →
  names_in P
    (foldl (fun expose epId =>
              let epName := "l" +:+ pretty epId in
              push (mkExpose (e_preset "switch") [withEndpoint epName])
                (push (mkExpose (e_text epName ea_ALL)
                         [withEndpoint epName; withProperty epName;
                          withDescription "State or sensor value"]) expose))
           expose ids).
Proof.
  revert expose. induction ids as [|i ids IH]; intros expose Hexpose Hids; [done|].
  cbn [foldl]. apply IH.
  - unfold push. repeat (apply Forall_app; split); [done| |];
      apply Forall_singleton; repeat constructor; apply Hids; by left.
  - intros j Hj. apply Hids. by right.
Qed.

Lemma endpoint_map_has (device : device_arg) (deviceConfig : string) (epId : Z) :
  epId ∈ endpoint_numbers device deviceConfig →
  is_Some (arr_props (arr_set "action" 1
             (add_endpoints (endpoint_numbers device deviceConfig) arr_empty))
           !! ("l" +:+ pretty epId)).
Proof.
  intros Hin. cbn [arr_set arr_props].
  rewrite lookup_insert_ne by (intros H; by destruct (epName_not_action epId)).
  exists epId. by apply add_endpoints_adds.
Qed.

(** X15: when every endpoint number of the device and of the
    configuration lies between 0 and 99, every endpoint name that an
    expose of [ptvo.switch] carries is a key of the map that the
    [endpoint] function of the record returns. *)
Theorem ptvo_switch_exposes_routed (toUpperCase : string → string)
    (device : device_arg) (options : KeyValue) (deviceConfig : string)
    (exposes : list Expose) (endpointList : JsArray) :
  ptvoGetMetaOption device "device_config" (VStr "") = VStr deviceConfig →
  (∀ ep, ep ∈ device_endpoints device → 0 ≤ ID ep < 100) →
  (∀ epId, epId ∈ config_endpoints (split_lines deviceConfig) → epId < 100) →
  ptvo_switch_exposes toUpperCase device options = Returned exposes →
  ptvo_switch_endpoint device = Returned endpointList →
  ∀ x name, x ∈ exposes → withEndpoint name ∈ modifiers x →
    is_Some (arr_props endpointList !! name).
Proof.
  intros Hcfg Heps Hlines Hexposes Hendpoint x name Hx Hname.
  rewrite (ptvo_switch_endpoint_unfold _ _ Hcfg) in Hendpoint.
  injection Hendpoint as <-.
  cut (names_in (fun n => ∃ epId, n = "l" +:+ pretty epId
                                  ∧ epId ∈ endpoint_numbers device deviceConfig) exposes).
  { intros Hnames.
    destruct (names_in_elem _ _ _ _ Hnames Hx Hname) as (epId & -> & Hin).
    by apply endpoint_map_has. }
  clear x name Hx Hname. revert Hexposes.
  unfold ptvo_switch_exposes. destruct device as [d|].
  - rewrite Hcfg. case_bool_decide as Hempty.
    + injection Hempty as ->.
      rewrite fold_standard_exposes, closing_exposes_app. intros [= <-]. cbn [app].
      apply Forall_app. split.
      * unfold endpoint_numbers. cbn [device_endpoints].
        induction (endpoints d) as [|ep eps IH]; [constructor|].
        cbn [flat_map]. apply Forall_app. split.
        -- eapply names_in_impl; [|apply standard_exposes_names].
           intros n ->. exists (ID ep). split; [done|]. by left.
        -- eapply names_in_impl; [|apply IH].
           intros n (i & -> & Hi). exists i. split; [done|].
           cbn [fmap list_fmap app]. by right.
      * eapply names_in_impl; [|apply closing_names]. done.
    + destruct (normalise_lines (split_lines deviceConfig)) as [all sorted] eqn:Hnorm.
      destruct (expose_entries_names toUpperCase d
                  (sort_strings (add_unlisted (endpoints d) all sorted))
                  ([], mkDeviceOptions ∅ ∅)) as (added & Hadded & Hnames).
      destruct (expose_entries _ _ _ _) as [e o]. cbn [fst app] in Hadded. subst e.
      rewrite closing_exposes_app. intros [= <-].
      apply Forall_app. split; [|eapply names_in_impl; [|apply closing_names]; done].
      eapply names_in_impl; [|exact Hnames].
      intros n (entry & Hentry & ->).
      unfold sort_strings in Hentry. rewrite merge_sort_Permutation in Hentry.
      unfold endpoint_numbers. rewrite bool_decide_eq_false_2 by congruence.
      apply add_unlisted_entries in Hentry as [Hentry|(ep & Hep & ->)].
      * replace sorted with (normalise_lines (split_lines deviceConfig)).2 in Hentry
          by (by rewrite Hnorm).
        apply (normalise_lines_entries toUpperCase) in Hentry
          as (line & epId & Hline & Hnormal).
        pose proof (normalise_line_config _ _ _ _ Hline Hnormal) as Hin.
        destruct (normalise_line_entry_id _ _ _ Hnormal) as [Hpos Hid].
        exists epId. split; [|apply elem_of_app; by right].
        apply Hlines, Hid in Hin. by rewrite Hin.
      * exists (ID ep). split; [|apply elem_of_app; left; by apply list_elem_of_fmap_2].
        apply Heps, endpoint_entry_id in Hep. by rewrite Hep.
  - rewrite closing_exposes_app. cbn [device_flags].
    set (body := foldl _ [] (seqZ 1 8)). intros Hrun. injection Hcfg as <-.
    assert (exposes = body ++ when (truthy ∅ "expose_action") action_expose
                           ++ when (truthy ∅ "expose_battery") battery_expose) as ->
      by congruence.
    apply Forall_app. split; [|eapply names_in_impl; [|apply closing_names]; done].
    unfold body. apply fallback_names; [constructor|].
    intros i Hi. exists i. split; [done|]. unfold endpoint_numbers.
    by rewrite bool_decide_eq_true_2.
Qed.

Lemma ptvo_switch_exposes_routed_witness :
  ∃ endpointList,
    ptvo_switch_endpoint (Real ptvo_device) = Returned endpointList
    ∧ is_Some (arr_props endpointList !! "l3").
Proof.
  destruct (ptvo_switch_endpoint (Real ptvo_device)) as [endpointList|e] eqn:Hendpoint;
    [|vm_compute in Hendpoint; discriminate Hendpoint].
  exists endpointList. split; [reflexivity|].
  destruct (ptvo_switch_exposes sample_toUpperCase (Real ptvo_device) ∅)
    as [exposes|e] eqn:Hrun; [|vm_compute in Hrun; discriminate Hrun].
  apply (ptvo_switch_exposes_routed sample_toUpperCase (Real ptvo_device) ∅
           (String "1" (String "W" (String (ascii_of_nat 13)
              (String (ascii_of_nat 10) "0AR,C"))))
           exposes endpointList)
    with (x := mkExpose (e_preset "switch") [withEndpoint "l3"]).
  - reflexivity.
  - apply Forall_forall. vm_compute. repeat constructor; discriminate.
  - apply Forall_forall. vm_compute. repeat constructor.
  - exact Hrun.
  - exact Hendpoint.
  - vm_compute in Hrun. injection Hrun as <-. right. left.
  - left.
Defined.
